(** * biostar3/forum/post_views.py: the post-browsing request handlers

    A shallow embedding of the handlers of [post_views.py] and the
    properties of them that the specification states.

    The handlers are Python 2 functions that read and write the database
    through the ORM, push flash messages, log, and answer with a rendered
    template or a redirect.  They are embedded as computations of a state
    and exception monad [M] over a [World]: the database rows and the trace
    of the externally visible calls. *)

From Stdlib Require Import ZArith Lia Ascii String.
From stdpp Require Import base option list gmap sets strings pretty sorting.

Local Open Scope string_scope.
Local Open Scope Z_scope.
Local Open Scope list_scope.
Local Open Scope stdpp_scope.

(** ** Data model

    The entities are declared in [models.py] and in the tagging library;
    the records below carry the columns that the handlers read or write.
    Primary keys and enumeration codes are integers. *)

Record User := mkUser {
  user_id : Z;
  user_name : string;
  user_is_authenticated : bool   (* [user.is_authenticated()] *)
}.

Record Post := mkPost {
  post_id : Z;
  post_type : Z;                 (* [p.type], one of the [Post.*] codes *)
  post_parent : Z;               (* [p.parent.id] *)
  post_author : Z;               (* [p.author.id] *)
  post_title : string;
  post_content : string;
  post_view_count : Z;
  post_tags : list string        (* names of the tags attached to the post *)
}.

Record Vote := mkVote {
  vote_author : Z;
  vote_post_id : Z;
  vote_type : Z                  (* one of the [Vote.*] codes *)
}.

Record PostView := mkPostView {
  pv_ip : string;
  pv_post : Z;
  pv_date : Z                    (* an instant, in microseconds *)
}.

Record Tag := mkTag { tag_name : string }.

Record UserGroup := mkUserGroup {
  group_id : Z;
  group_public : bool
}.

Record DB := mkDB {
  db_posts : list Post;
  db_votes : list Vote;
  db_post_views : list PostView;
  db_tags : list Tag;
  db_users : list User;
  db_groups : list UserGroup
}.

(** The request: the query string [request.GET], the user and the group
    that the middleware attached, and the client address that
    [auth.remote_ip] reads from it. *)
Record Request := mkRequest {
  GET : gmap string string;
  req_user : User;
  req_group : UserGroup;
  req_ip : string
}.

(** ** Exceptions, trace and the handler monad *)

(** The exceptions that the handlers meet; each of them is a subclass of
    [Exception], which is what [except Exception] catches. *)
Inductive exn :=
| IndexError
| KeyError
| DatabaseError (msg : string).

Inductive result (A : Type) :=
| Ok (a : A)
| Raise (e : exn).
Arguments Ok {A} a.
Arguments Raise {A} e.

(** What a handler does that is visible outside of it, next to the
    database rows: flash messages, log records, and the calls into the
    search backend, the paginator and the recent-votes query. *)
Inductive event :=
| EvMessage (text : string)              (* [messages.info(request, text)] *)
| EvLogError (e : exn)                   (* [logger.error(exc)] *)
| EvSearch (q : string)                  (* [search.plain(q)] *)
| EvPaginate (per_page : Z)              (* [...Paginator(...).curr_page()] *)
| EvRecentVotes.                         (* [query.recent_votes()] *)

Record World := mkWorld {
  db : DB;
  trace : list event
}.

Definition M (A : Type) : Type := World → result A * World.

Definition ret {A} (a : A) : M A := λ w, (Ok a, w).

Definition bind {A B} (m : M A) (k : A → M B) : M B :=
  λ w, match m w with
       | (Ok a, w') => k a w'
       | (Raise e, w') => (Raise e, w')
       end.

Definition raise {A} (e : exn) : M A := λ w, (Raise e, w).

(** [try: m except Exception, exc: h exc] *)
Definition try_except {A} (m : M A) (h : exn → M A) : M A :=
  λ w, match m w with
       | (Ok a, w') => (Ok a, w')
       | (Raise e, w') => h e w'
       end.

Definition get_db : M DB := λ w, (Ok (db w), w).
Definition put_db (d : DB) : M unit := λ w, (Ok tt, mkWorld d (trace w)).
Definition emit (e : event) : M unit :=
  λ w, (Ok tt, mkWorld (db w) (trace w ++ [e])).

#[export] Instance M_ret : MRet M := @ret.
#[export] Instance M_bind : MBind M := λ A B k m, bind m k.

(** ** Python values used by the handlers *)

(** Instants are [datetime] values, counted in microseconds. *)
Definition minute : Z := 60 * 1000000.

(** [s.split(sep)] for a one-character separator: the pieces between the
    occurrences of [sep], empty pieces included. *)
Fixpoint split (sep : ascii) (s : string) : list string :=
  match s with
  | EmptyString => [EmptyString]
  | String c s' =>
      if Ascii.eqb c sep then EmptyString :: split sep s'
      else match split sep s' with
           | [] => [String c EmptyString]
           | piece :: pieces => String c piece :: pieces
           end
  end.

(** [c in s] for a character. *)
Fixpoint has_char (c : ascii) (s : string) : bool :=
  match s with
  | EmptyString => false
  | String c' s' => Ascii.eqb c' c || has_char c s'
  end.

(** [needle in s] on strings. *)
Fixpoint contains (needle s : string) : bool :=
  String.prefix needle s ||
  match s with
  | EmptyString => false
  | String _ s' => contains needle s'
  end.

Definition lower (c : ascii) : ascii :=
  let n := nat_of_ascii c in
  if ((65 <=? n) && (n <=? 90))%nat then ascii_of_nat (n + 32) else c.

Fixpoint lower_string (s : string) : string :=
  match s with
  | EmptyString => EmptyString
  | String c s' => String (lower c) (lower_string s')
  end.

(** [collections.OrderedDict]: the keys in the order of their first
    insertion, each with its value. *)
Definition OrderedDict (K V : Type) : Type := list (K * V).

Section ordered_dict.
Context {K V : Type} `{EqDecision K}.

(** [d.get(k)] *)
Fixpoint od_get (k : K) (d : OrderedDict K V) : option V :=
  match d with
  | [] => None
  | (k', v) :: d' => if decide (k = k') then Some v else od_get k d'
  end.

Definition od_keys (d : OrderedDict K V) : list K := fst <$> d.
Definition od_values (d : OrderedDict K V) : list V := snd <$> d.
End ordered_dict.

(** [d.setdefault(k, []).append(x)]: [x] goes to the end of the list held
    under [k]; a key that is not there yet is added last, with [[x]]. *)
Fixpoint od_setdefault_append {K A} `{EqDecision K}
    (k : K) (x : A) (d : OrderedDict K (list A)) : OrderedDict K (list A) :=
  match d with
  | [] => [(k, [x])]
  | (k', l) :: d' =>
      if decide (k = k') then (k', l ++ [x]) :: d'
      else (k', l) :: od_setdefault_append k x d'
  end.

(** [store[k]] on a [dict]: [KeyError] when the key is not there. *)
Definition subscript {V} (store : gmap Z V) (k : Z) : M V :=
  match store !! k with
  | Some v => mret v
  | None => raise KeyError
  end.

(** [random.choice(seq)]: the element at a drawn index below [len(seq)];
    [IndexError] on an empty sequence. *)
Definition random_choice {A} (draw : nat) (seq : list A) : M A :=
  match seq !! (draw `mod` length seq)%nat with
  | Some x => mret x
  | None => raise IndexError
  end.

(** ** Responses *)

Record Page (A : Type) := mkPage {
  object_list : list A;
  page_number : Z
}.
Arguments mkPage {A} _ _.
Arguments object_list {A} _.
Arguments page_number {A} _.

(** A post of the thread page, with the attributes that [decorator] sets
    on it. *)
Record DPost := mkDPost {
  dp_post : Post;
  editable : bool;
  has_vote : bool;
  has_bookmark : bool
}.

(** The root post of the thread page, with the attributes that [post_view]
    sets on it. *)
Record RootPost := mkRootPost {
  root : DPost;
  upvotes : gset Z;
  bookmarks : gset Z;
  answers : list DPost;
  comments : OrderedDict Z (list DPost)
}.

Inductive Context :=
| TagListContext (page : Page Tag) (tags : list Tag) (html_title q : string)
| PostListContext (page : Page Post) (posts : list Post)
    (recent_votes : list Vote) (html_title : string)
| GroupListContext (public_groups : list UserGroup)
| SearchContext (page : Page Post) (posts : list Post)
    (recent_votes : list Vote) (html_title q : string)
| PostDetailContext (post : RootPost) (html_title : string).

Inductive Response :=
| Render (template_name : string) (context : Context)
| Redirect (url : string).

(** ** The environment of a request

    What the handlers get from outside and the source does not fix: the
    clock, the draws of [random], the text that [faker] makes up, and
    whether a database statement of [update_post_views] is refused (the
    database refuses, for one, a client address that is not well formed). *)

Inductive db_op :=
| SelectPostView (ip : string) (post : Z) (since : Z)
| InsertPostView (row : PostView)
| UpdateViewCount (post : Z).

Record Env := mkEnv {
  clock_ago : Z;                 (* the clock when [auth.ago] reads it *)
  clock_now : Z;                 (* the clock when [auth.now] reads it *)
  rand_user : nat;               (* the draws of [random.choice] *)
  rand_parent : nat;
  faker_bs : string;             (* [f.bs()] *)
  db_fault : db_op → option exn
}.

(** ** Collaborators

    The modules [query], [search], [auth], [models] and [settings] of the
    package, and the framework, are not part of this file. What the
    handlers take from them is an interface; the queries read the database
    and do not write it. *)
Class Collaborators := {
  (* settings *)
  POSTS_PER_PAGE : Z;
  POST_VIEW_INTERVAL : Z;
  (* models *)
  Vote_UP : Z;
  Vote_BOOKMARK : Z;
  Post_ANSWER : Z;
  Post_COMMENT : Z;
  is_toplevel : Post → bool;
  get_absolute_url : Post → string;
  (* query *)
  get_toplevel_posts : User → UserGroup → DB → list Post;
  get_all_posts : User → UserGroup → DB → list Post;
  get_posts_by_vote : User → UserGroup → list Z → DB → list Post;
  get_my_bookmarks : User → UserGroup → DB → list Post;
  recent_votes : DB → list Vote;
  get_thread : Post → User → DB → list Post;
  PostPaginator : Request → list Post → Z → Page Post;
  TagPaginator : Request → list Tag → Z → Page Tag;
  (* search *)
  search_plain : string → DB → list Post;
  (* auth *)
  thread_write_access : User → Post → DB → User → Post → bool;
  (* framework *)
  reverse : string → string;
  order_by_name : list Tag → list Tag
}.

(** A paginator shows a part of the rows it was given. *)
Definition paginator_selects `{Collaborators} : Prop :=
  ∀ request posts per_page,
    object_list (PostPaginator request posts per_page) ⊆ posts.

(** ** ORM statements *)

(** [posts.filter(tags__name__in=names)]: the join of the posts with their
    tags, restricted to the tags named in [names]; a post has one row for
    each of its tags that is named. *)
Definition filter_tags_name_in (names : list string) (posts : list Post)
    : list Post :=
  p ← posts; (λ _, p) <$> filter (λ t, t ∈ names) (post_tags p).

(** [Tag.objects.filter(name__icontains=q)] *)
Definition filter_name_icontains (q : string) (tags : list Tag) : list Tag :=
  filter (λ t, contains (lower_string q) (lower_string (tag_name t)) = true)
         tags.

(** [UserGroup.objects.filter(public=True)] *)
Definition filter_public (groups : list UserGroup) : list UserGroup :=
  filter (λ g, group_public g = true) groups.

(** [PostView.objects.filter(ip=ip, post=post, date__gt=since)] *)
Definition filter_post_views (ip : string) (post since : Z)
    (rows : list PostView) : list PostView :=
  filter (λ v, pv_ip v = ip ∧ pv_post v = post ∧ since < pv_date v) rows.

(** [Vote.objects.filter(post_id__in=pids, author=user)
       .values_list("post_id", "type")] *)
Definition filter_votes (pids : list Z) (user : User) (rows : list Vote)
    : list (Z * Z) :=
  (λ v, (vote_post_id v, vote_type v)) <$>
  filter (λ v, vote_post_id v ∈ pids ∧ vote_author v = user_id user) rows.

Definition set_view_count (n : Z) (p : Post) : Post :=
  mkPost (post_id p) (post_type p) (post_parent p) (post_author p)
         (post_title p) (post_content p) n (post_tags p).

(** [Post.objects.filter(id=pk).update(view_count=F('view_count') + 1)]:
    one statement, which the database evaluates on each row it selects. *)
Definition update_view_count (pk : Z) (rows : list Post) : list Post :=
  (λ p, if decide (post_id p = pk)
        then set_view_count (post_view_count p + 1) p else p) <$> rows.

Definition with_posts (rows : list Post) (d : DB) : DB :=
  mkDB rows (db_votes d) (db_post_views d) (db_tags d) (db_users d)
       (db_groups d).

Definition with_post_views (rows : list PostView) (d : DB) : DB :=
  mkDB (db_posts d) (db_votes d) rows (db_tags d) (db_users d) (db_groups d).

(** The primary key that the database gives to a new post. *)
Definition fresh_post_id (rows : list Post) : Z :=
  1 + foldr Z.max 0 (post_id <$> rows).

(** A statement of [update_post_views]: refused with an exception when the
    environment says so, run otherwise. *)
Definition statement {A} (env : Env) (op : db_op) (run : M A) : M A :=
  match db_fault env op with
  | Some e => raise e
  | None => run
  end.

(** ** The handlers *)

Section handlers.
Context `{Collaborators}.

Definition messages_info (text : string) : M unit := emit (EvMessage text).
Definition logger_error (exc : exn) : M unit := emit (EvLogError exc).

(** [query.PostPaginator(request, posts, per_page=n, orphans=False)
      .curr_page()] *)
Definition post_curr_page (request : Request) (posts : list Post)
    (per_page : Z) : M (Page Post) :=
  emit (EvPaginate per_page);;
  mret (PostPaginator request posts per_page).

Definition tag_curr_page (request : Request) (tags : list Tag)
    (per_page : Z) : M (Page Tag) :=
  emit (EvPaginate per_page);;
  mret (TagPaginator request tags per_page).

Definition query_recent_votes : M (list Vote) :=
  emit EvRecentVotes;;
  d ← get_db;
  mret (recent_votes d).

Definition search_plain_call (q : string) : M (list Post) :=
  emit (EvSearch q);;
  d ← get_db;
  mret (search_plain q d).

(** [auth.remote_ip(request)] *)
Definition remote_ip (request : Request) : string := req_ip request.

(** Modelled from the spec: [auth.ago(minutes=m)], which is not in this
    file, is the instant "the configured interval ago": [m] minutes
    before the reading of the clock. *)
Definition ago (env : Env) (minutes : Z) : Z :=
  clock_ago env - minutes * minute.

(** [auth.now()] *)
Definition now (env : Env) : Z := clock_now env.

(** [request.GET.get('q', '')] *)
Definition GET_get (request : Request) (key default : string) : string :=
  match GET request !! key with
  | Some v => v
  | None => default
  end.

(** Python's truth value of a string. *)
Definition truthy (s : string) : bool :=
  match s with
  | EmptyString => false
  | String _ _ => true
  end.

Definition tag_list (request : Request) : M Response :=
  let template_name := "tag_list.html" in
  let q := GET_get request "q" "" in
  d ← get_db;
  let tags := if truthy q then filter_name_icontains q (db_tags d)
              else db_tags d in
  let tags := order_by_name tags in
  page ← tag_curr_page request tags 100;
  let html_title := "Tags" in
  mret (Render template_name
          (TagListContext page (object_list page) html_title q)).

Definition post_list (request : Request) (posts : option (list Post))
    : M Response :=
  let template_name := "post_list.html" in
  posts ← match posts with
          | None =>
              d ← get_db;
              mret (get_toplevel_posts (req_user request)
                      (req_group request) d)
          | Some posts => mret posts
          end;
  page ← post_curr_page request posts POSTS_PER_PAGE;
  recent ← query_recent_votes;
  let html_title := "Post List" in
  mret (Render template_name
          (PostListContext page (object_list page) recent html_title)).

Definition tag_filter (request : Request) (name : string) : M Response :=
  d ← get_db;
  let posts := get_toplevel_posts (req_user request) (req_group request) d in
  let names := split "+" name in
  let posts := filter_tags_name_in names posts in
  messages_info ("Filtering for tags: " +:+ name);;
  post_list request (Some posts).

Definition posts_by_user (request : Request) (pk : Z) (user : User)
    : M Response :=
  d ← get_db;
  let posts := get_all_posts user (req_group request) d in
  messages_info ("Posts by: " +:+ user_name user);;
  post_list request (Some posts).

Definition upvoted_posts (request : Request) (pk : Z) (user : User)
    : M Response :=
  d ← get_db;
  let posts := get_posts_by_vote user (req_group request)
                 [Vote_BOOKMARK; Vote_UP] d in
  messages_info ("Upvoted posts by: " +:+ user_name user);;
  post_list request (Some posts).

Definition my_bookmarks (request : Request) : M Response :=
  let user := req_user request in
  d ← get_db;
  let posts := get_my_bookmarks user (req_group request) d in
  messages_info ("Bookmarks for: " +:+ user_name user);;
  post_list request (Some posts).

Definition group_list (request : Request) : M Response :=
  let template_name := "post_list.html" in
  d ← get_db;
  let public_groups := filter_public (db_groups d) in
  mret (Render template_name (GroupListContext public_groups)).

Definition search_results (request : Request) : M Response :=
  let template_name := "post_search_results.html" in
  let q := GET_get request "q" "" in
  if negb (truthy q) then mret (Redirect (reverse "home"))
  else
    posts ← search_plain_call q;
    page ← post_curr_page request posts POSTS_PER_PAGE;
    recent ← query_recent_votes;
    let html_title := "Post List" in
    mret (Render template_name
            (SearchContext page (object_list page) recent html_title q)).

(** [PostView.objects.create(ip=ip, post=post, date=date)] *)
Definition PostView_create (row : PostView) : M unit :=
  d ← get_db;
  put_db (with_post_views (db_post_views d ++ [row]) d).

Definition Post_update_view_count (pk : Z) : M unit :=
  d ← get_db;
  put_db (with_posts (update_view_count pk (db_posts d)) d).

Definition update_post_views (env : Env) (request : Request) (post : Post)
    (minutes : Z) : M unit :=
  let ip := remote_ip request in
  let since := ago env minutes in
  try_except
    (seen ← statement env (SelectPostView ip (post_id post) since)
              (d ← get_db;
               mret (filter_post_views ip (post_id post) since
                       (db_post_views d)));
     if bool_decide (seen = []) then
       let row := mkPostView ip (post_id post) (now env) in
       statement env (InsertPostView row) (PostView_create row);;
       statement env (UpdateViewCount (post_id post))
         (Post_update_view_count (post_id post))
     else mret tt)
    (λ exc, logger_error exc).

(** [models.Post.objects.create(type=t, parent=parent, content=text,
      author=u)] *)
Definition Post_create (type parent : Z) (content : string) (author : Z)
    : M Post :=
  d ← get_db;
  let row := mkPost (fresh_post_id (db_posts d)) type parent author
               "" content 0 [] in
  put_db (with_posts (db_posts d ++ [row]) d);;
  mret row.

(** [store.setdefault(vote_type, set()).add(post_id)] *)
Definition store_add (store : gmap Z (gset Z)) (vote : Z * Z)
    : gmap Z (gset Z) :=
  let '(post_id, vote_type) := vote in
  <[vote_type := default ∅ (store !! vote_type) ∪ {[post_id]}]> store.

(** The votes of the user on the posts of the thread, by vote type. *)
Definition collect_votes (user : User) (thread : list Post) (d : DB)
    : gmap Z (gset Z) :=
  let store := <[Vote_BOOKMARK := ∅]> (<[Vote_UP := ∅]> ∅) in
  if user_is_authenticated user then
    let pids := post_id <$> thread in
    let votes := filter_votes pids user (db_votes d) in
    foldl store_add store votes
  else store.

Definition decorator (check : User → Post → bool) (user : User)
    (post_upvotes post_bookmarks : gset Z) (p : Post) : DPost :=
  mkDPost p (check user p)
          (bool_decide (post_id p ∈ post_upvotes))
          (bool_decide (post_id p ∈ post_bookmarks)).

(** [comments.setdefault(comment.parent.id, []).append(comment)] *)
Definition add_comment (d : OrderedDict Z (list DPost)) (comment : DPost)
    : OrderedDict Z (list DPost) :=
  od_setdefault_append (post_parent (dp_post comment)) comment d.

(** The comments of the thread, keyed by the id of their parent. *)
Definition collect_comments (thread : list DPost)
    : OrderedDict Z (list DPost) :=
  let comment_list :=
    filter (λ pc, post_type (dp_post pc) = Post_COMMENT) thread in
  foldl add_comment [] comment_list.

(** The block of [post_view] that is "for testing only": a comment with
    made-up text, by a user drawn at random, on a post of the page drawn
    at random. *)
Definition add_test_comment (env : Env) (page_posts : list DPost)
    : M unit :=
  d ← get_db;
  u ← random_choice (rand_user env) (db_users d);
  parent ← random_choice (rand_parent env) page_posts;
  let text := faker_bs env in
  Post_create Post_COMMENT (post_id (dp_post parent)) text (user_id u);;
  mret tt.

Definition post_view (env : Env) (request : Request) (pk : Z)
    (post : Post) (user : User) : M Response :=
  let template_name := "post_detail.html" in
  if negb (is_toplevel post) then mret (Redirect (get_absolute_url post))
  else
    update_post_views env request post POST_VIEW_INTERVAL;;
    d ← get_db;
    let thread := get_thread post user d in
    let store := collect_votes user thread d in
    post_upvotes ← subscript store Vote_UP;
    post_bookmarks ← subscript store Vote_BOOKMARK;
    let write_access_check := thread_write_access user post d in
    let decorate :=
      decorator write_access_check user post_upvotes post_bookmarks in
    let thread := decorate <$> thread in
    let post' := decorate post in
    let post_answers :=
      filter (λ p, post_type (dp_post p) = Post_ANSWER) thread in
    let post_comments := collect_comments thread in
    (if user_is_authenticated user
     then add_test_comment env (thread ++ [post'])
     else mret tt);;
    let html_title := post_title post in
    mret (Render template_name
            (PostDetailContext
               (mkRootPost post' post_upvotes post_bookmarks post_answers
                  post_comments)
               html_title)).

End handlers.

(** ** Predicates of the specification *)

Section predicates.
Context `{Collaborators}.

(** [pc] is a comment whose parent has the id [k]. *)
Definition comment_of (k : Z) (pc : DPost) : Prop :=
  post_type (dp_post pc) = Post_COMMENT ∧ post_parent (dp_post pc) = k.

#[export] Instance comment_of_dec k pc : Decision (comment_of k pc).
Proof. unfold comment_of. apply _. Defined.

(** The rows that make [update_post_views] skip the view. *)
Definition seen_views env request post minutes w : list PostView :=
  filter_post_views (remote_ip request) (post_id post) (ago env minutes)
    (db_post_views (db w)).

Definition new_view env request post : PostView :=
  mkPostView (remote_ip request) (post_id post) (now env).

(** The exception, if any, that the statements of the call run into. *)
Definition refused env request post minutes w : option exn :=
  match db_fault env (SelectPostView (remote_ip request) (post_id post)
                        (ago env minutes)) with
  | Some e => Some e
  | None =>
      if bool_decide (seen_views env request post minutes w = []) then
        match db_fault env (InsertPostView (new_view env request post)) with
        | Some e => Some e
        | None => db_fault env (UpdateViewCount (post_id post))
        end
      else None
  end.

(** The user has a vote of type [t] on the post [pid]. *)
Definition user_voted (d : DB) (user : User) (t pid : Z) : Prop :=
  ∃ v, v ∈ db_votes d ∧ vote_author v = user_id user ∧
       vote_post_id v = pid ∧ vote_type v = t.

(** The thread page that [post_view] hands to the template, from the
    database [d] that it reads after recording the view. *)
Definition thread_page (d : DB) (post : Post) (user : User)
    (up bm : gset Z) : RootPost :=
  let decorate := decorator (thread_write_access user post d) user up bm in
  let thread := decorate <$> get_thread post user d in
  mkRootPost (decorate post) up bm
    (filter (λ p, post_type (dp_post p) = Post_ANSWER) thread)
    (collect_comments thread).

(** [p] is one of the posts that the thread page shows: the root post,
    an answer, or a comment. *)
Definition rendered (rp : RootPost) (p : DPost) : Prop :=
  p = root rp ∨ p ∈ answers rp ∨ ∃ k l, (k, l) ∈ comments rp ∧ p ∈ l.

(** The writes that the handlers may do between the database [d] and
    the database [d']: new rows in the table of page views, one more view
    on the rows of one post, new comments; the rest is as it was. *)
Definition writes_only (d d' : DB) : Prop :=
  db_votes d' = db_votes d ∧
  db_tags d' = db_tags d ∧
  db_users d' = db_users d ∧
  db_groups d' = db_groups d ∧
  (∃ views, db_post_views d' = db_post_views d ++ views) ∧
  (∃ old comments,
     db_posts d' = old ++ comments ∧
     (old = db_posts d ∨ ∃ pk, old = update_view_count pk (db_posts d)) ∧
     Forall (λ p, post_type p = Post_COMMENT) comments).

Definition frame {A} (m : M A) : Prop :=
  ∀ w, writes_only (db w) (db (m w).2).

End predicates.

(** The posts that a response of [post_list] shows. *)
Definition shown_posts (r : result Response * World) : list Post :=
  match r with
  | (Ok (Render _ (PostListContext _ posts _ _)), _) => posts
  | _ => []
  end.

(** The sentence of the specification on [tag_filter]: with two names
    joined by [+], only posts that carry both tags are shown. *)
Definition tag_filter_shows_both_tags : Prop :=
  ∀ (site : Collaborators) request a b w,
    paginator_selects →
    has_char "+" a = false → has_char "+" b = false →
    ∀ p, p ∈ shown_posts (tag_filter request (a +:+ "+" +:+ b) w) →
         a ∈ post_tags p ∧ b ∈ post_tags p.

(** The posts that a response of [search_results] shows. *)
Definition shown_results (r : result Response * World) : list Post :=
  match r with
  | (Ok (Render _ (SearchContext _ posts _ _ _)), _) => posts
  | _ => []
  end.

(** ** A small site, for the examples *)

Definition tag_le (a b : Tag) : Prop :=
  String.leb (tag_name a) (tag_name b) = true.

#[export] Instance tag_le_dec a b : Decision (tag_le a b).
Proof. unfold tag_le. apply _. Defined.

Definition demo_site : Collaborators := {|
  POSTS_PER_PAGE := 10;
  POST_VIEW_INTERVAL := 5;
  Vote_UP := 0;
  Vote_BOOKMARK := 2;
  Post_ANSWER := 1;
  Post_COMMENT := 6;
  is_toplevel p := bool_decide (post_type p = 0);
  get_absolute_url p :=
    "/p/" +:+ pretty (post_parent p) +:+ "/#" +:+ pretty (post_id p);
  get_toplevel_posts _ _ d := filter (λ p, post_type p = 0) (db_posts d);
  get_all_posts u _ d :=
    filter (λ p, post_author p = user_id u) (db_posts d);
  get_posts_by_vote u _ types d :=
    filter (λ p, Exists (λ v, vote_author v = user_id u ∧
                              vote_post_id v = post_id p ∧
                              vote_type v ∈ types) (db_votes d))
           (db_posts d);
  get_my_bookmarks u _ d :=
    filter (λ p, Exists (λ v, vote_author v = user_id u ∧
                              vote_post_id v = post_id p ∧
                              vote_type v = 2) (db_votes d))
           (db_posts d);
  recent_votes d := take 5 (db_votes d);
  get_thread post _ d :=
    filter (λ p, post_parent p = post_id post ∨
                 Exists (λ q, post_id q = post_parent p ∧
                              post_parent q = post_id post) (db_posts d))
           (db_posts d);
  PostPaginator _ posts per_page := mkPage (take (Z.to_nat per_page) posts) 1;
  TagPaginator _ tags per_page := mkPage (take (Z.to_nat per_page) tags) 1;
  search_plain q d :=
    filter (λ p, contains q (post_content p) = true) (db_posts d);
  thread_write_access _ _ _ u p := bool_decide (post_author p = user_id u);
  reverse name := if decide (name = "home") then "/" else "/" +:+ name;
  order_by_name tags :=
    merge_sort tag_le tags
|}.

Definition alice : User := mkUser 1 "alice" true.
Definition anonymous : User := mkUser 0 "" false.
Definition everyone : UserGroup := mkUserGroup 1 true.

(** A question (1) with an answer (2) and three comments (3, 4, 5), and a
    second question (6). *)
Definition demo_db : DB := {|
  db_posts := [
    mkPost 1 0 1 1 "How to align reads?" "bwa or bowtie" 7 ["alignment"];
    mkPost 2 1 1 2 "" "use bwa mem" 0 [];
    mkPost 3 6 1 1 "" "which version?" 0 [];
    mkPost 4 6 2 1 "" "thanks" 0 [];
    mkPost 5 6 1 2 "" "the latest" 0 [];
    mkPost 6 0 6 2 "RNA-seq counts" "featureCounts" 3 ["rna-seq"; "alignment"]
  ];
  db_votes := [mkVote 1 2 0; mkVote 1 1 2; mkVote 2 1 0; mkVote 1 6 0;
               mkVote 1 3 3];
  db_post_views := [mkPostView "10.0.0.7" 1 (96 * minute)];
  db_tags := [mkTag "rna-seq"; mkTag "alignment"];
  db_users := [alice; mkUser 2 "bob" true];
  db_groups := [everyone]
|}.

Definition demo_world : World := mkWorld demo_db [].

Definition demo_request (user : User) (q : option string) : Request :=
  mkRequest (match q with Some v => {["q" := v]} | None => ∅ end)
            user everyone "10.0.0.7".

(** The environment of a request made [m] minutes after the start of the
    clock, when no statement is refused. *)
Definition demo_env (m : Z) : Env :=
  mkEnv (m * minute) (m * minute) 3 1 "synergize scalable metrics"
        (λ _, None).

Definition question : Post :=
  mkPost 1 0 1 1 "How to align reads?" "bwa or bowtie" 7 ["alignment"].

(** The page of the question for alice, and for a visitor who is not
    logged in; the world after each of the two requests. *)
Definition alice_page : RootPost :=
  Eval vm_compute in
    thread_page (H:=demo_site) demo_db question alice {[2]} {[1]}.

Definition alice_world : World :=
  Eval vm_compute in
    (post_view (H:=demo_site) (demo_env 100) (demo_request alice None) 1
       question alice demo_world).2.

Definition visitor_page : RootPost :=
  Eval vm_compute in
    thread_page (H:=demo_site) demo_db question anonymous ∅ ∅.

Definition answer : Post := mkPost 2 1 1 2 "" "use bwa mem" 0 [].

(** The world after a view of the question that is counted. *)
Definition viewed_world : World :=
  Eval vm_compute in
    (update_post_views (demo_env 200) (demo_request anonymous None)
       question 5 demo_world).2.

(** ** Further notions for the properties of the handlers *)

(** [sep.join(pieces)] *)
Fixpoint join (sep : ascii) (pieces : list string) : string :=
  match pieces with
  | [] => EmptyString
  | [piece] => piece
  | piece :: pieces => piece +:+ String sep (join sep pieces)
  end.

(** The elements of a list in the order in which each one comes first. *)
Fixpoint first_seen `{EqDecision A} (l : list A) : list A :=
  match l with
  | [] => []
  | x :: l => x :: filter (λ y, y ≠ x) (first_seen l)
  end.

(** The rows of page views, in the order of their insertion, are spaced
    by [gap]: of two rows for one address and one post, the later one is
    dated at least [gap] after the earlier one. *)
Definition spaced (gap : Z) (rows : list PostView) : Prop :=
  ∀ i j a b,
    rows !! i = Some a → rows !! j = Some b → (i < j)%nat →
    pv_ip a = pv_ip b → pv_post a = pv_post b →
    pv_date a + gap ≤ pv_date b.

(** The tags that a response of [tag_list] shows. *)
Definition shown_tags (r : result Response * World) : list Tag :=
  match r with
  | (Ok (Render _ (TagListContext _ tags _ _)), _) => tags
  | _ => []
  end.

(** The paginator of tags shows a part of the rows it was given, and
    [order_by] keeps the rows. *)
Definition tag_paginator_selects `{Collaborators} : Prop :=
  ∀ request tags per_page,
    object_list (TagPaginator request tags per_page) ⊆ tags.

Definition order_by_keeps `{Collaborators} : Prop :=
  ∀ tags, order_by_name tags ≡ₚ tags.

(** An environment in which the database takes the row of a view and
    refuses the update of the count. *)
Definition demo_env_no_update (m : Z) : Env :=
  mkEnv (m * minute) (m * minute) 3 1 "synergize scalable metrics"
        (λ op, match op with
               | UpdateViewCount _ => Some (DatabaseError "deadlock")
               | _ => None
               end).

(** * Properties *)

Ltac unfold_m :=
  unfold mbind, M_bind, bind, mret, M_ret, ret, raise, try_except,
    get_db, put_db, emit in *.

(** ** Ordered dictionaries *)

Section od_facts.
Context {K A : Type} `{EqDecision K}.
Implicit Types (d : OrderedDict K (list A)) (k : K) (x : A).

Lemma od_get_setdefault_append k k' x d :
  od_get k (od_setdefault_append k' x d) =
  if decide (k = k') then Some (default [] (od_get k d) ++ [x])
  else od_get k d.
Proof.
  induction d as [|[k0 l] d IH]; simpl.
  - destruct (decide (k = k')); done.
  - destruct (decide (k' = k0)) as [->|]; simpl.
    + destruct (decide (k = k0)); done.
    + rewrite IH. destruct (decide (k = k0)) as [->|]; [|done].
      by rewrite decide_False.
Qed.

Lemma od_keys_setdefault_append k x d :
  od_keys (od_setdefault_append k x d) =
  if decide (k ∈ od_keys d) then od_keys d else od_keys d ++ [k].
Proof.
  unfold od_keys. induction d as [|[k0 l] d IH].
  - done.
  - cbn [od_setdefault_append].
    destruct (decide (k = k0)) as [->|Hne].
    + rewrite fmap_cons. cbn [fst].
      rewrite decide_True by (rewrite fmap_cons; left). done.
    + rewrite !fmap_cons, IH. cbn [fst].
      destruct (decide (k ∈ d.*1)) as [Hin|Hnin].
      * rewrite decide_True by (by right). done.
      * rewrite decide_False; [done|].
        intros [?|?]%elem_of_cons; done.
Qed.

Lemma od_keys_NoDup k x d :
  NoDup (od_keys d) → NoDup (od_keys (od_setdefault_append k x d)).
Proof.
  intros Hd. rewrite od_keys_setdefault_append.
  destruct (decide (k ∈ od_keys d)); [done|].
  apply NoDup_app. split_and!; [done| |apply NoDup_singleton].
  intros y Hy ->%list_elem_of_singleton. done.
Qed.

(** With distinct keys, the items are what [od_get] finds. *)
Lemma od_get_Some k (v : list A) d :
  NoDup (od_keys d) → od_get k d = Some v ↔ (k, v) ∈ d.
Proof.
  unfold od_keys. induction d as [|[k0 l] d IH]; intros Hd.
  - cbn. split; [done|]. by intros ?%elem_of_nil.
  - rewrite fmap_cons in Hd. apply NoDup_cons in Hd as [Hk0 Hd].
    cbn [od_get]. destruct (decide (k = k0)) as [->|Hne].
    + split.
      * intros [= ->]. left.
      * intros [[= ->]|Hin]%elem_of_cons; [done|].
        destruct Hk0. apply list_elem_of_fmap. by exists (k0, v).
    + rewrite IH by done. split.
      * by right.
      * intros [[= -> ->]|Hin]%elem_of_cons; done.
Qed.
End od_facts.

(** ** Grouping the comments of a thread *)

Section comments_facts.
Context `{Collaborators}.

Lemma od_get_foldl_add k (l : list DPost) d :
  od_get k (foldl add_comment d l) =
  match od_get k d, filter (λ c, post_parent (dp_post c) = k) l with
  | None, [] => None
  | o, l' => Some (default [] o ++ l')
  end.
Proof.
  revert d. induction l as [|c l IH]; intros d.
  - cbn. destruct (od_get k d); [by rewrite app_nil_r|done].
  - cbn [foldl]. rewrite IH. unfold add_comment.
    rewrite od_get_setdefault_append, filter_cons.
    destruct (decide (k = post_parent (dp_post c))) as [->|Hne].
    + rewrite decide_True by done.
      destruct (od_get _ d); cbn; [by rewrite <-app_assoc | done].
    + rewrite decide_False by done. done.
Qed.

Lemma NoDup_keys_foldl_add (l : list DPost) d :
  NoDup (od_keys d) → NoDup (od_keys (foldl add_comment d l)).
Proof.
  revert d. induction l as [|c l IH]; intros d Hd; [done|].
  cbn [foldl]. apply IH, od_keys_NoDup, Hd.
Qed.

Lemma od_get_collect_comments k thread :
  od_get k (collect_comments thread) =
  match filter (comment_of k) thread with
  | [] => None
  | l => Some l
  end.
Proof.
  unfold collect_comments.
  rewrite od_get_foldl_add. cbn [od_get default app].
  rewrite list_filter_filter.
  replace (filter (λ x, post_parent (dp_post x) = k ∧ post_type (dp_post x) = Post_COMMENT) thread)
    with (filter (comment_of k) thread).
  - by destruct (filter _ _).
  - apply list_filter_iff. unfold comment_of. tauto.
Qed.
End comments_facts.

(** ** Recording a page view *)

Section update_post_views_facts.
Context `{Collaborators}.
Implicit Types (env : Env) (request : Request) (post : Post) (w : World).

Lemma update_post_views_run env request post minutes w :
  update_post_views env request post minutes w =
  let ip := remote_ip request in
  let pk := post_id post in
  let row := new_view env request post in
  let d := db w in
  match db_fault env (SelectPostView ip pk (ago env minutes)) with
  | Some e => (Ok tt, mkWorld d (trace w ++ [EvLogError e]))
  | None =>
      if bool_decide (seen_views env request post minutes w = []) then
        match db_fault env (InsertPostView row) with
        | Some e => (Ok tt, mkWorld d (trace w ++ [EvLogError e]))
        | None =>
            let d1 := with_post_views (db_post_views d ++ [row]) d in
            match db_fault env (UpdateViewCount pk) with
            | Some e => (Ok tt, mkWorld d1 (trace w ++ [EvLogError e]))
            | None =>
                (Ok tt,
                 mkWorld (with_posts (update_view_count pk (db_posts d1)) d1)
                         (trace w))
            end
        end
      else (Ok tt, w)
  end.
Proof.
  unfold update_post_views, statement, logger_error, PostView_create,
    Post_update_view_count, seen_views, new_view.
  unfold_m. cbn zeta.
  destruct (db_fault env (SelectPostView _ _ _)); [done|].
  cbn. case_bool_decide; [|done].
  destruct (db_fault env (InsertPostView _)); [done|].
  destruct (db_fault env (UpdateViewCount _)); done.
Qed.
(** The new count is the count of the row in the database plus one: the
    count that the handler's copy of the post holds plays no part. *)
Remark update_post_views_from_row env request post minutes n :
  update_post_views env request (set_view_count n post) minutes =
  update_post_views env request post minutes.
Proof. reflexivity. Qed.

End update_post_views_facts.

(** ** The votes of the user on a thread *)

Section votes_facts.
Context `{Collaborators}.

Lemma elem_of_filter_votes pids user rows pid t :
  (pid, t) ∈ filter_votes pids user rows ↔
  pid ∈ pids ∧ ∃ v, v ∈ rows ∧ vote_author v = user_id user ∧
                     vote_post_id v = pid ∧ vote_type v = t.
Proof.
  unfold filter_votes. rewrite list_elem_of_fmap. split.
  - intros (v & [= -> ->] & ([Hpid Hauth] & Hin)%list_elem_of_filter).
    split; [done|]. by exists v.
  - intros (Hpid & v & Hv & Hauth & <- & <-).
    exists v. split; [done|]. apply list_elem_of_filter. done.
Qed.

Lemma store_add_lookup store vote t :
  store_add store vote !! t =
  if decide (vote.2 = t) then Some (default ∅ (store !! t) ∪ {[vote.1]})
  else store !! t.
Proof.
  destruct vote as [pid vt]. cbn.
  rewrite lookup_insert. destruct (decide (vt = t)) as [->|]; done.
Qed.

Lemma foldl_store_add_lookup votes store t s :
  store !! t = Some s →
  ∃ s', foldl store_add store votes !! t = Some s' ∧
        ∀ pid, pid ∈ s' ↔ pid ∈ s ∨ (pid, t) ∈ votes.
Proof.
  revert store s. induction votes as [|[pid vt] votes IH]; intros store s Hs.
  - exists s. split; [done|]. intros pid. rewrite elem_of_nil. tauto.
  - cbn [foldl].
    destruct (decide (vt = t)) as [->|Hne].
    + destruct (IH (store_add store (pid, t)) (s ∪ {[pid]})) as (s' & Hs' & Hin).
      { rewrite store_add_lookup. cbn. rewrite decide_True by done.
        by rewrite Hs. }
      exists s'. split; [done|]. intros pid'. rewrite Hin.
      rewrite elem_of_union, elem_of_singleton.
      split.
      * intros [[Hs0 | ->] | Hv]; [by left | right; left | by right; right].
      * intros [Hs0 | [[= ->] | Hv]%elem_of_cons];
          [by left; left | by left; right | by right].
    + destruct (IH (store_add store (pid, vt)) s) as (s' & Hs' & Hin).
      { rewrite store_add_lookup. cbn. by rewrite decide_False. }
      exists s'. split; [done|]. intros pid'. rewrite Hin.
      split.
      * intros [Hs0 | Hv]; [by left | by right; right].
      * intros [Hs0 | [[= -> ->] | Hv]%elem_of_cons];
          [by left | done | by right].
Qed.

Lemma collect_votes_lookup user thread d t :
  t = Vote_UP ∨ t = Vote_BOOKMARK →
  ∃ s, collect_votes user thread d !! t = Some s ∧
       ∀ pid, pid ∈ s ↔
              user_is_authenticated user = true ∧
              pid ∈ post_id <$> thread ∧ user_voted d user t pid.
Proof.
  intros Ht.
  assert ((<[Vote_BOOKMARK := ∅]> (<[Vote_UP := ∅]> ∅) : gmap Z (gset Z))
            !! t = Some ∅) as Hstore.
  { rewrite lookup_insert.
    destruct (decide (Vote_BOOKMARK = t)); [done|].
    destruct Ht as [ -> | -> ]; [|done]. by rewrite lookup_insert_eq. }
  unfold collect_votes. destruct (user_is_authenticated user).
  - destruct (foldl_store_add_lookup
                (filter_votes (post_id <$> thread) user (db_votes d))
                _ t ∅ Hstore) as (s & Hs & Hin).
    exists s. split; [done|]. intros pid.
    rewrite Hin, elem_of_filter_votes, elem_of_empty. unfold user_voted.
    tauto.
  - exists ∅. split; [done|]. intros pid. rewrite elem_of_empty.
    split; [done|]. by intros [? _].
Qed.
End votes_facts.

(** ** The thread page *)

Section post_view_facts.
Context `{Collaborators}.
Implicit Types (env : Env) (request : Request) (post : Post) (w : World).

Lemma update_post_views_ok env request post minutes w :
  ∃ w', update_post_views env request post minutes w = (Ok tt, w').
Proof.
  rewrite update_post_views_run. cbn zeta.
  repeat (case_match; try by eexists).
Qed.

Lemma post_view_toplevel env request pk post user w :
  is_toplevel post = true →
  ∃ w1 up bm,
    update_post_views env request post POST_VIEW_INTERVAL w = (Ok tt, w1) ∧
    let d := db w1 in
    let thread := get_thread post user d in
    let decorate := decorator (thread_write_access user post d) user up bm in
    collect_votes user thread d !! Vote_UP = Some up ∧
    collect_votes user thread d !! Vote_BOOKMARK = Some bm ∧
    post_view env request pk post user w =
    let response :=
      Render "post_detail.html"
        (PostDetailContext (thread_page d post user up bm)
           (post_title post)) in
    if user_is_authenticated user then
      match add_test_comment env
              ((decorate <$> thread) ++ [decorate post]) w1 with
      | (Ok _, w2) => (Ok response, w2)
      | (Raise e, w2) => (Raise e, w2)
      end
    else (Ok response, w1).
Proof.
  intros Htop.
  destruct (update_post_views_ok env request post POST_VIEW_INTERVAL w)
    as [w1 Hw1].
  destruct (collect_votes_lookup user (get_thread post user (db w1)) (db w1)
              Vote_UP) as (up & Hup & _); [by left|].
  destruct (collect_votes_lookup user (get_thread post user (db w1)) (db w1)
              Vote_BOOKMARK) as (bm & Hbm & _); [by right|].
  exists w1, up, bm. cbn zeta. split_and!; [done..|].
  unfold post_view, thread_page. rewrite Htop. cbn [negb].
  unfold subscript. unfold_m. rewrite Hw1. cbn [db].
  rewrite Hup, Hbm.
  destruct (user_is_authenticated user); [|done].
  by destruct (add_test_comment _ _ _) as [[[]|e] w2].
Qed.

Lemma post_view_not_toplevel env request pk post user w :
  is_toplevel post = false →
  post_view env request pk post user w =
  (Ok (Redirect (get_absolute_url post)), w).
Proof. intros Htop. unfold post_view. by rewrite Htop. Qed.

(** What a call of [post_view] that renders a page has rendered. *)
Lemma post_view_rendered env request pk post user w tn rp title w' :
  post_view env request pk post user w =
    (Ok (Render tn (PostDetailContext rp title)), w') →
  ∃ w1 up bm,
    update_post_views env request post POST_VIEW_INTERVAL w = (Ok tt, w1) ∧
    collect_votes user (get_thread post user (db w1)) (db w1) !! Vote_UP
      = Some up ∧
    collect_votes user (get_thread post user (db w1)) (db w1)
      !! Vote_BOOKMARK = Some bm ∧
    rp = thread_page (db w1) post user up bm.
Proof.
  destruct (is_toplevel post) eqn:Htop.
  - destruct (post_view_toplevel env request pk post user w Htop)
      as (w1 & up & bm & Hw1 & Hup & Hbm & ->).
    intros Hrun. exists w1, up, bm. split_and!; [done..|].
    cbn zeta in Hrun. destruct (user_is_authenticated user).
    + destruct (add_test_comment _ _ _) as [[[]|e] w2]; congruence.
    + congruence.
  - rewrite post_view_not_toplevel by done. intros [=].
Qed.
End post_view_facts.

Section claims_thread.
Context `{Collaborators}.
Implicit Types (env : Env) (request : Request) (post : Post) (w : World).

Lemma NoDup_keys_collect_comments thread :
  NoDup (od_keys (collect_comments thread)).
Proof. apply NoDup_keys_foldl_add. constructor. Qed.

Lemma elem_of_collect_comments k l thread :
  (k, l) ∈ collect_comments thread ↔
  l ≠ [] ∧ l = filter (comment_of k) thread.
Proof.
  rewrite <-od_get_Some by apply NoDup_keys_collect_comments.
  rewrite od_get_collect_comments.
  destruct (filter (comment_of k) thread) as [|c cs].
  - split; [done|]. by intros [? ->].
  - split; [by intros [= <-]|]. by intros [_ ->].
Qed.

(** C2. The comments of a thread page are grouped by parent: the page
    holds, under the id of a parent, exactly the comments of the thread
    on that parent, in the order of the thread that the query layer gave;
    so every comment of the thread is under the id of its parent, and
    nothing that is not a comment is in the dictionary. *)
Theorem post_view_comments_by_parent env request pk post user w
    tn rp title w' :
  post_view env request pk post user w =
    (Ok (Render tn (PostDetailContext rp title)), w') →
  let d := db (update_post_views env request post POST_VIEW_INTERVAL w).2 in
  ∃ thread,
    dp_post <$> thread = get_thread post user d ∧
    NoDup (od_keys (comments rp)) ∧
    (∀ k l, (k, l) ∈ comments rp ↔
            l ≠ [] ∧ l = filter (comment_of k) thread) ∧
    (∀ c, c ∈ thread → post_type (dp_post c) = Post_COMMENT →
          ∃ l, (post_parent (dp_post c), l) ∈ comments rp ∧ c ∈ l) ∧
    (∀ k l c, (k, l) ∈ comments rp → c ∈ l →
              c ∈ thread ∧ post_type (dp_post c) = Post_COMMENT ∧
              post_parent (dp_post c) = k) ∧
    (∀ k l, (k, l) ∈ comments rp → l `sublist_of` thread).
Proof.
  intros (w1 & up & bm & Hw1 & _ & _ & ->)%post_view_rendered.
  rewrite Hw1. cbn [snd]. cbn zeta.
  set (decorate :=
         decorator (thread_write_access user post (db w1)) user up bm).
  exists (decorate <$> get_thread post user (db w1)).
  assert (∀ k l, (k, l) ∈ comments (thread_page (db w1) post user up bm) ↔
            l ≠ [] ∧ l = filter (comment_of k)
                           (decorate <$> get_thread post user (db w1)))
    as Hchar by (intros k l; apply elem_of_collect_comments).
  split_and!.
  - rewrite <-list_fmap_compose. apply list_fmap_id.
  - apply NoDup_keys_collect_comments.
  - done.
  - intros c Hc Htype.
    exists (filter (comment_of (post_parent (dp_post c)))
              (decorate <$> get_thread post user (db w1))).
    assert (c ∈ filter (comment_of (post_parent (dp_post c)))
                  (decorate <$> get_thread post user (db w1))) as Hin
      by (by apply list_elem_of_filter).
    split; [|done]. apply Hchar. split; [|done].
    intros Hnil. rewrite Hnil in Hin. by apply elem_of_nil in Hin.
  - intros k l c [_ ->]%Hchar [[Htype Hpar] Hin]%list_elem_of_filter.
    done.
  - intros k l [_ ->]%Hchar. apply sublist_filter.
Qed.
End claims_thread.

Section claims_votes.
Context `{Collaborators}.
Implicit Types (env : Env) (request : Request) (post : Post) (w : World).

Lemma writes_only_refl d : writes_only d d.
Proof.
  split_and!; try done.
  - exists []. by rewrite app_nil_r.
  - exists (db_posts d), []. rewrite app_nil_r.
    split_and!; [done|by left|constructor].
Qed.

Lemma update_post_views_writes env request post minutes :
  frame (update_post_views env request post minutes).
Proof.
  intros w. rewrite update_post_views_run. cbn zeta.
  destruct (db_fault env (SelectPostView _ _ _));
    [apply writes_only_refl|].
  case_bool_decide; [|apply writes_only_refl].
  destruct (db_fault env (InsertPostView _)); [apply writes_only_refl|].
  destruct (db_fault env (UpdateViewCount _)); cbn.
  - split_and!; try done.
    + by eexists.
    + exists (db_posts (db w)), []. rewrite app_nil_r.
      split_and!; [done|by left|constructor].
  - split_and!; try done.
    + by eexists.
    + exists (update_view_count (post_id post) (db_posts (db w))), [].
      rewrite app_nil_r. split_and!; [done|right; by eexists|constructor].
Qed.

Lemma rendered_thread_page d post user up bm p :
  rendered (thread_page d post user up bm) p →
  p = decorator (thread_write_access user post d) user up bm post ∨
  p ∈ decorator (thread_write_access user post d) user up bm
        <$> get_thread post user d.
Proof.
  intros [->|[Hin|(k & l & Hkl & Hin)]].
  - by left.
  - right. by apply list_elem_of_filter in Hin as [_ Hin].
  - right. apply elem_of_collect_comments in Hkl as [_ ->].
    by apply list_elem_of_filter in Hin as [_ Hin].
Qed.

(** C3. For an authenticated user, a post of the thread page has
    [has_vote] exactly when the user has a vote of type [UP] on it, and
    [has_bookmark] exactly when the user has a vote of type [BOOKMARK] on
    it, among the votes on the posts of the thread, which are the votes
    that are consulted. The answers and the comments are posts of the
    thread; the root post is decorated in the same way. *)
Theorem post_view_vote_flags env request pk post user w tn rp title w' :
  user_is_authenticated user = true →
  post_view env request pk post user w =
    (Ok (Render tn (PostDetailContext rp title)), w') →
  let d := db (update_post_views env request post POST_VIEW_INTERVAL w).2 in
  let pids := post_id <$> get_thread post user d in
  dp_post (root rp) = post ∧
  (∀ p, rendered rp p →
        (has_vote p = true ↔
         post_id (dp_post p) ∈ pids ∧
         user_voted (db w) user Vote_UP (post_id (dp_post p))) ∧
        (has_bookmark p = true ↔
         post_id (dp_post p) ∈ pids ∧
         user_voted (db w) user Vote_BOOKMARK (post_id (dp_post p)))) ∧
  (∀ p, rendered rp p → p ≠ root rp → post_id (dp_post p) ∈ pids) ∧
  (∀ p, rendered rp p → post_id (dp_post p) ∈ pids →
        (has_vote p = true ↔
         user_voted (db w) user Vote_UP (post_id (dp_post p))) ∧
        (has_bookmark p = true ↔
         user_voted (db w) user Vote_BOOKMARK (post_id (dp_post p)))).
Proof.
  intros Hauth (w1 & up & bm & Hw1 & Hup & Hbm & ->)%post_view_rendered.
  pose proof (update_post_views_writes env request post POST_VIEW_INTERVAL w)
    as (Hvotes & _).
  rewrite Hw1 in *. cbn [snd] in *. cbn zeta.
  set (d := db w1) in *. set (thread := get_thread post user d) in *.
  destruct (collect_votes_lookup user thread d Vote_UP) as (up' & Hup' & Hinup);
    [by left|].
  destruct (collect_votes_lookup user thread d Vote_BOOKMARK)
    as (bm' & Hbm' & Hinbm); [by right|].
  assert (up' = up) as -> by congruence.
  assert (bm' = bm) as -> by congruence.
  assert (∀ t pid, user_voted d user t pid ↔ user_voted (db w) user t pid)
    as Hvoted by (intros t pid; unfold user_voted; by rewrite Hvotes).
  assert (∀ p : DPost, rendered (thread_page d post user up bm) p →
            (has_vote p = true ↔
             post_id (dp_post p) ∈ post_id <$> thread ∧
             user_voted (db w) user Vote_UP (post_id (dp_post p))) ∧
            (has_bookmark p = true ↔
             post_id (dp_post p) ∈ post_id <$> thread ∧
             user_voted (db w) user Vote_BOOKMARK (post_id (dp_post p))))
    as Hflags.
  { intros p Hp. 
    assert (∃ q, p = decorator (thread_write_access user post d) user up bm q)
      as [q ->].
    { apply rendered_thread_page in Hp as [->|(q & -> & _)%list_elem_of_fmap];
        by eexists. }
    cbn. rewrite !bool_decide_eq_true, Hinup, Hinbm, <-!Hvoted. tauto. }
  split_and!; [done|exact Hflags| |].
  - intros p Hp Hroot.
    apply rendered_thread_page in Hp as [->|(q & -> & Hq)%list_elem_of_fmap];
      [done|].
    cbn. apply list_elem_of_fmap. by exists q.
  - intros p Hp Hpid. destruct (Hflags p Hp) as [Hv Hb].
    rewrite Hv, Hb. tauto.
Qed.

(** C10. For a user who is not authenticated the store of votes stays as
    it was made, with two empty sets: the thread page has no upvotes and
    no bookmarks, and no post on it has [has_vote] or [has_bookmark]. *)
Theorem post_view_anonymous_flags env request pk post user w
    tn rp title w' :
  user_is_authenticated user = false →
  post_view env request pk post user w =
    (Ok (Render tn (PostDetailContext rp title)), w') →
  (∀ thread d,
     collect_votes user thread d =
     <[Vote_BOOKMARK := ∅]> (<[Vote_UP := ∅]> ∅)) ∧
  upvotes rp = ∅ ∧ bookmarks rp = ∅ ∧
  ∀ p, rendered rp p → has_vote p = false ∧ has_bookmark p = false.
Proof.
  intros Hauth (w1 & up & bm & Hw1 & Hup & Hbm & ->)%post_view_rendered.
  set (d := db w1) in *. set (thread := get_thread post user d) in *.
  assert (∀ thread d,
            collect_votes user thread d =
            <[Vote_BOOKMARK := ∅]> (<[Vote_UP := ∅]> ∅)) as Hstore.
  { intros ??. unfold collect_votes. by rewrite Hauth. }
  assert (up = ∅) as ->.
  { rewrite Hstore, lookup_insert in Hup.
    destruct (decide (Vote_BOOKMARK = Vote_UP)); [congruence|].
    rewrite lookup_insert_eq in Hup. congruence. }
  assert (bm = ∅) as ->.
  { rewrite Hstore, lookup_insert_eq in Hbm. congruence. }
  split_and!; [done..|].
  intros p Hp.
  apply rendered_thread_page in Hp as [->|(q & -> & _)%list_elem_of_fmap];
    cbn; by rewrite !bool_decide_eq_false_2 by apply not_elem_of_empty.
Qed.
End claims_votes.

Section claims_views.
Context `{Collaborators}.
Implicit Types (env : Env) (request : Request) (post : Post) (w : World).

Lemma random_choice_ok {A} draw (seq : list A) w :
  seq ≠ [] → ∃ x, x ∈ seq ∧ random_choice draw seq w = (Ok x, w).
Proof.
  intros Hseq. unfold random_choice.
  destruct (lookup_lt_is_Some_2 seq (draw `mod` length seq)%nat) as [x Hx].
  { apply Nat.mod_upper_bound. by destruct seq. }
  rewrite Hx. exists x. split; [|done]. by eapply list_elem_of_lookup_2.
Qed.

Lemma add_test_comment_ok env page_posts w :
  db_users (db w) ≠ [] → page_posts ≠ [] →
  ∃ w', add_test_comment env page_posts w = (Ok tt, w').
Proof.
  intros Husers Hposts. unfold add_test_comment, Post_create. unfold_m.
  destruct (random_choice_ok (rand_user env) (db_users (db w)) w Husers)
    as (u & _ & ->).
  destruct (random_choice_ok (rand_parent env) page_posts w Hposts)
    as (parent & _ & ->).
  by eexists.
Qed.

(** C4. [update_post_views] returns to its caller whatever happens to
    its database statements: an exception of a statement is caught and
    logged. So [post_view] goes on to render the page of a toplevel post
    (the testing block asks for a user to draw when the user is
    authenticated). *)
Theorem update_post_views_swallows env request post minutes w :
  (∃ w', update_post_views env request post minutes w = (Ok tt, w') ∧
         trace w' =
         trace w ++ match refused env request post minutes w with
                    | Some exc => [EvLogError exc]
                    | None => []
                    end) ∧
  ∀ pk user,
    is_toplevel post = true →
    user_is_authenticated user = false ∨ db_users (db w) ≠ [] →
    ∃ rp w', post_view env request pk post user w =
             (Ok (Render "post_detail.html"
                    (PostDetailContext rp (post_title post))), w').
Proof.
  split.
  - rewrite update_post_views_run. unfold refused. cbn zeta.
    destruct (db_fault env (SelectPostView _ _ _)); [by eexists|].
    case_bool_decide; [|eexists; split; [done|by rewrite app_nil_r]].
    destruct (db_fault env (InsertPostView _)); [by eexists|].
    destruct (db_fault env (UpdateViewCount _)); [by eexists|].
    eexists. split; [done|]. cbn. by rewrite app_nil_r.
  - intros pk user Htop Huser.
    destruct (post_view_toplevel env request pk post user w Htop)
      as (w1 & up & bm & Hw1 & _ & _ & ->). cbn zeta.
    destruct (user_is_authenticated user) eqn:Hauth; [|by eexists _, _].
    destruct Huser as [?|Husers]; [done|].
    pose proof (update_post_views_writes env request post
                  POST_VIEW_INTERVAL w) as (_ & _ & Hu & _).
    rewrite Hw1 in Hu. cbn [snd] in Hu.
    edestruct (add_test_comment_ok env) as [w2 ->];
      [by rewrite Hu| |by eexists _, _].
    by intros [? ?]%app_eq_nil.
Qed.

(** C6. For a post that is not toplevel, [post_view] answers with a
    redirect to the URL of the post and does nothing else: no view is
    recorded, no count is changed, nothing is rendered. *)
Theorem post_view_redirects_replies env request pk post user w :
  is_toplevel post = false →
  post_view env request pk post user w =
  (Ok (Redirect (get_absolute_url post)), w).
Proof. apply post_view_not_toplevel. Qed.

(** C7. Without a query, [search_results] redirects to the home route
    and calls neither the search nor the paginator; with a query [q], it
    renders the page of results of the search for [q]. *)
Theorem search_results_query request w :
  (GET request !! "q" = None ∨ GET request !! "q" = Some "" →
   search_results request w = (Ok (Redirect (reverse "home")), w)) ∧
  (∀ q, GET request !! "q" = Some q → q ≠ "" →
        let page :=
          PostPaginator request (search_plain q (db w)) POSTS_PER_PAGE in
        search_results request w =
        (Ok (Render "post_search_results.html"
               (SearchContext page (object_list page) (recent_votes (db w))
                  "Post List" q)),
         mkWorld (db w)
                 (trace w ++ [EvSearch q] ++ [EvPaginate POSTS_PER_PAGE]
                          ++ [EvRecentVotes]))).
Proof.
  unfold search_results, GET_get. split.
  - by intros [->| ->].
  - intros q -> Hq. destruct q as [|c q]; [done|].
    cbn [truthy negb]. unfold search_plain_call, post_curr_page,
      query_recent_votes. unfold_m. cbn.
    by rewrite <-!app_assoc.
Qed.
End claims_views.

Section claims_writes.
Context `{Collaborators}.
Implicit Types (env : Env) (request : Request) (post : Post) (w : World).

Lemma update_view_count_neq pk rows :
  pk ∈ post_id <$> rows → update_view_count pk rows ≠ rows.
Proof.
  unfold update_view_count.
  induction rows as [|p rows IH]; [by intros ?%elem_of_nil|].
  rewrite !fmap_cons. intros [Hpk|Hin]%elem_of_cons [= Hp Hrows].
  - rewrite decide_True in Hp by done.
    apply (f_equal post_view_count) in Hp. cbn in Hp. lia.
  - by apply IH.
Qed.

Lemma snoc_neq {A} (l : list A) x : l ++ [x] ≠ l.
Proof.
  intros Heq%(f_equal length). rewrite length_app in Heq. cbn in Heq. lia.
Qed.

(** C9. In a call of [update_post_views] that runs into no exception,
    the count of the post goes up by one exactly when a row of
    [PostView] is created (the post being a row of the database): both
    happen when no row for the address and the post is younger than the
    interval, and none when there is one. So a view is counted only when
    every view recorded before for the address and the post is at least
    the interval old, and a call within the interval after it counts
    nothing. *)
Theorem update_post_views_once env request post minutes w w' :
  update_post_views env request post minutes w = (Ok tt, w') →
  trace w' = trace w →
  let seen := seen_views env request post minutes w in
  let created :=
    db_post_views (db w') =
    db_post_views (db w) ++ [new_view env request post] in
  let incremented :=
    db_posts (db w') =
    update_view_count (post_id post) (db_posts (db w)) in
  (seen = [] → created ∧ incremented) ∧
  (seen ≠ [] → db w' = db w ∧ ¬ created) ∧
  (created → incremented) ∧
  (post_id post ∈ post_id <$> db_posts (db w) →
   (incremented → created) ∧ (seen ≠ [] → ¬ incremented)) ∧
  (created →
   ∀ v, v ∈ db_post_views (db w) →
        pv_ip v = remote_ip request → pv_post v = post_id post →
        pv_date v ≤ ago env minutes) ∧
  (created →
   ∀ env2 w2,
     new_view env request post ∈ db_post_views (db w2) →
     ago env2 minutes < now env →
     db (update_post_views env2 request post minutes w2).2 = db w2).
Proof.
  intros Hrun Htrace. cbn zeta.
  assert (seen_views env request post minutes w = [] →
          ∀ v, v ∈ db_post_views (db w) →
               pv_ip v = remote_ip request → pv_post v = post_id post →
               pv_date v ≤ ago env minutes) as Hold.
  { intros Hseen v Hv Hip Hpk.
    destruct (decide (ago env minutes < pv_date v)) as [Hlt|]; [|lia].
    assert (v ∈ seen_views env request post minutes w) as Hin
      by (by apply list_elem_of_filter).
    rewrite Hseen in Hin. by apply elem_of_nil in Hin. }
  assert (∀ env2 w2,
            new_view env request post ∈ db_post_views (db w2) →
            ago env2 minutes < now env →
            db (update_post_views env2 request post minutes w2).2 = db w2)
    as Hnext.
  { intros env2 w2 Hin Hlt. rewrite update_post_views_run. cbn zeta.
    destruct (db_fault env2 (SelectPostView _ _ _)); [done|].
    case_bool_decide as Hseen2; [|done].
    assert (new_view env request post
              ∈ seen_views env2 request post minutes w2) as Hin2
      by (by apply list_elem_of_filter).
    rewrite Hseen2 in Hin2. by apply elem_of_nil in Hin2. }
  rewrite update_post_views_run in Hrun. cbn zeta in Hrun.
  destruct (db_fault env (SelectPostView _ _ _)).
  { injection Hrun as <-. cbn in Htrace. by apply snoc_neq in Htrace. }
  case_bool_decide as Hseen.
  - destruct (db_fault env (InsertPostView _)).
    { injection Hrun as <-. cbn in Htrace. by apply snoc_neq in Htrace. }
    destruct (db_fault env (UpdateViewCount _)).
    { injection Hrun as <-. cbn in Htrace. by apply snoc_neq in Htrace. }
    injection Hrun as <-. cbn. split_and!; try done.
    intros _. by apply Hold.
  - injection Hrun as <-.
    assert (db_post_views (db w)
              ≠ db_post_views (db w) ++ [new_view env request post])
      as Hnc by (intros Heq; by apply (snoc_neq (db_post_views (db w))
                                          (new_view env request post))).
    split_and!; try done.
    intros Hpost.
    assert (db_posts (db w)
              ≠ update_view_count (post_id post) (db_posts (db w)))
      as Hni by (intros Heq; by apply (update_view_count_neq
                                          (post_id post) (db_posts (db w)))).
    done.
Qed.

Lemma writes_only_trans d1 d2 d3 :
  writes_only d1 d2 →
  db_votes d3 = db_votes d2 → db_tags d3 = db_tags d2 →
  db_users d3 = db_users d2 → db_groups d3 = db_groups d2 →
  db_post_views d3 = db_post_views d2 →
  (∃ c, db_posts d3 = db_posts d2 ++ [c] ∧ post_type c = Post_COMMENT) →
  writes_only d1 d3.
Proof.
  intros (Hv & Ht & Hu & Hg & [views Hviews] & (old & cs & Hposts & Hold & Hcs))
    Hv3 Ht3 Hu3 Hg3 Hpv3 (c & Hc & Htype).
  split_and!; try congruence.
  - exists views. congruence.
  - exists old, (cs ++ [c]). split_and!; [|done|].
    + rewrite Hc, Hposts. by rewrite app_assoc.
    + apply Forall_app. split; [done|]. by constructor.
Qed.

Lemma frame_reads {A} (m : M A) : (∀ w, db (m w).2 = db w) → frame m.
Proof. intros Hm w. rewrite Hm. apply writes_only_refl. Qed.

Lemma post_list_reads request posts w :
  db (post_list request posts w).2 = db w.
Proof.
  unfold post_list, post_curr_page, query_recent_votes. unfold_m.
  by destruct posts.
Qed.

Lemma add_test_comment_writes env page_posts w :
  db (add_test_comment env page_posts w).2 = db w ∨
  ∃ c, post_type c = Post_COMMENT ∧
       db (add_test_comment env page_posts w).2 =
       with_posts (db_posts (db w) ++ [c]) (db w).
Proof.
  unfold add_test_comment, Post_create, random_choice. unfold_m.
  destruct (db_users (db w) !! _); [|by left].
  destruct (page_posts !! _); [|by left].
  right. eexists. split; [|cbn; reflexivity]. done.
Qed.

Lemma post_view_writes env request pk post user :
  frame (post_view env request pk post user).
Proof.
  intros w. destruct (is_toplevel post) eqn:Htop.
  - destruct (post_view_toplevel env request pk post user w Htop)
      as (w1 & up & bm & Hw1 & _ & _ & ->). cbn zeta.
    pose proof (update_post_views_writes env request post
                  POST_VIEW_INTERVAL w) as Hw.
    rewrite Hw1 in Hw. cbn [snd] in Hw.
    destruct (user_is_authenticated user); [|done].
    match goal with
    | |- context [add_test_comment env ?ps w1] =>
        destruct (add_test_comment_writes env ps w1) as [Hdb|(c & Hc & Hdb)];
        destruct (add_test_comment env ps w1) as [[[]|e] w2]
    end; cbn [snd] in *; rewrite Hdb; try done.
    all: eapply writes_only_trans; [exact Hw|done..|by exists c].
  - rewrite post_view_not_toplevel by done. apply writes_only_refl.
Qed.

(** C5. The handlers write the database in three ways only: a new row
    of [PostView], one more view in the count of a post, a new comment.
    The votes, the tags, the users and the groups are as they were after
    every handler, and so are the rows of the posts but for the count of
    views. *)
Theorem handlers_writes env request name pk posts user post minutes :
  frame (tag_list request) ∧
  frame (tag_filter request name) ∧
  frame (posts_by_user request pk user) ∧
  frame (upvoted_posts request pk user) ∧
  frame (my_bookmarks request) ∧
  frame (post_list request posts) ∧
  frame (group_list request) ∧
  frame (search_results request) ∧
  frame (update_post_views env request post minutes) ∧
  frame (post_view env request pk post user).
Proof.
  split_and!.
  - apply frame_reads. intros w. unfold tag_list, tag_curr_page.
    by unfold_m.
  - apply frame_reads. intros w. unfold tag_filter, messages_info.
    unfold_m. cbn -[post_list]. by rewrite post_list_reads.
  - apply frame_reads. intros w. unfold posts_by_user, messages_info.
    unfold_m. cbn -[post_list]. by rewrite post_list_reads.
  - apply frame_reads. intros w. unfold upvoted_posts, messages_info.
    unfold_m. cbn -[post_list]. by rewrite post_list_reads.
  - apply frame_reads. intros w. unfold my_bookmarks, messages_info.
    unfold_m. cbn -[post_list]. by rewrite post_list_reads.
  - apply frame_reads. intros w. apply post_list_reads.
  - apply frame_reads. intros w. unfold group_list. by unfold_m.
  - apply frame_reads. intros w.
    unfold search_results, search_plain_call, post_curr_page,
      query_recent_votes. unfold_m.
    by destruct (truthy _).
  - apply update_post_views_writes.
  - apply post_view_writes.
Qed.
End claims_writes.

Section claims_tags.
Context `{Collaborators}.

Lemma split_no_sep sep s : has_char sep s = false → split sep s = [s].
Proof.
  induction s as [|c s IH]; [done|]. cbn.
  intros [Hc Hs]%orb_false_iff. by rewrite Hc, IH.
Qed.

Lemma split_join sep a b :
  has_char sep a = false →
  split sep (a +:+ String sep b) = a :: split sep b.
Proof.
  induction a as [|c a IH].
  - intros _. change ("" +:+ String sep b) with (String sep b).
    cbn. by rewrite Ascii.eqb_refl.
  - change (String c a +:+ String sep b)
      with (String c (a +:+ String sep b)).
    cbn. intros [Hc Ha]%orb_false_iff. by rewrite Hc, IH.
Qed.

Lemma elem_of_filter_tags_name_in names posts p :
  p ∈ filter_tags_name_in names posts ↔
  p ∈ posts ∧ ∃ t, t ∈ names ∧ t ∈ post_tags p.
Proof.
  unfold filter_tags_name_in. rewrite list_elem_of_bind. split.
  - intros (q & (t & -> & [Ht Hin]%list_elem_of_filter)%list_elem_of_fmap
              & Hq).
    split; [done|]. by exists t.
  - intros (Hp & t & Ht & Hin). exists p. split; [|done].
    apply list_elem_of_fmap. exists t. split; [done|].
    by apply list_elem_of_filter.
Qed.

Lemma shown_posts_tag_filter request name w :
  shown_posts (tag_filter request name w) =
  object_list
    (PostPaginator request
       (filter_tags_name_in (split "+" name)
          (get_toplevel_posts (req_user request) (req_group request)
             (db w)))
       POSTS_PER_PAGE).
Proof.
  unfold tag_filter, post_list, messages_info, post_curr_page,
    query_recent_votes. by unfold_m.
Qed.

(** C1, amended. [tag_filter] shows only toplevel posts that carry at
    least one of the names of the request; with two names joined by [+],
    each post that is shown carries the one or the other. *)
Theorem tag_filter_shows_any_tag request name w :
  paginator_selects →
  (∀ p, p ∈ shown_posts (tag_filter request name w) →
        p ∈ get_toplevel_posts (req_user request) (req_group request)
              (db w) ∧
        ∃ t, t ∈ split "+" name ∧ t ∈ post_tags p) ∧
  (∀ a b, name = a +:+ "+" +:+ b →
          has_char "+" a = false → has_char "+" b = false →
          ∀ p, p ∈ shown_posts (tag_filter request name w) →
               a ∈ post_tags p ∨ b ∈ post_tags p).
Proof.
  intros Hpage.
  assert (∀ p, p ∈ shown_posts (tag_filter request name w) →
            p ∈ get_toplevel_posts (req_user request) (req_group request)
                  (db w) ∧
            ∃ t, t ∈ split "+" name ∧ t ∈ post_tags p) as Hany.
  { intros p. rewrite shown_posts_tag_filter.
    intros Hp%Hpage. by apply elem_of_filter_tags_name_in in Hp. }
  split; [done|].
  intros a b -> Ha Hb p (_ & t & Ht & Hin)%Hany.
  change (a +:+ "+" +:+ b) with (a +:+ String "+" b) in Ht.
  rewrite split_join, split_no_sep in Ht by done.
  apply elem_of_cons in Ht as [->|Ht]; [by left|].
  apply list_elem_of_singleton in Ht as ->. by right.
Qed.
End claims_tags.

Lemma demo_paginator_selects : @paginator_selects demo_site.
Proof. intros request posts per_page. cbn. apply subseteq_take. Qed.

(** C1 fails as the specification states it: a request for
    [alignment+chip-seq] shows the two questions tagged [alignment], none of
    which is tagged [chip-seq]. *)
Lemma tag_filter_shows_both_tags_counterexample :
  ¬ tag_filter_shows_both_tags.
Proof.
  intros Hboth.
  destruct (Hboth demo_site (demo_request anonymous None)
              "alignment" "chip-seq" demo_world demo_paginator_selects
              eq_refl eq_refl question) as [_ Hchip].
  - vm_compute. left.
  - vm_compute in Hchip. by apply list_elem_of_singleton in Hchip.
Qed.

(** The request for [alignment+chip-seq] on the small site. *)
Lemma tag_filter_shows_any_tag_witness :
  @paginator_selects demo_site ∧
  ∀ p, p ∈ shown_posts (tag_filter (H:=demo_site)
                          (demo_request anonymous None)
                          "alignment+chip-seq" demo_world) →
       "alignment" ∈ post_tags p ∨ "chip-seq" ∈ post_tags p.
Proof.
  split; [exact demo_paginator_selects|].
  exact (proj2 (tag_filter_shows_any_tag (H:=demo_site)
                  (demo_request anonymous None) "alignment+chip-seq"
                  demo_world demo_paginator_selects)
           "alignment" "chip-seq" eq_refl eq_refl eq_refl).
Defined.

(** * Examples on the small site *)

(** The comments on the page of the question, for alice. *)
Lemma post_view_comments_by_parent_witness :
  post_view (H:=demo_site) (demo_env 100) (demo_request alice None) 1
    question alice demo_world =
  (Ok (Render "post_detail.html"
         (PostDetailContext alice_page "How to align reads?")),
   alice_world) ∧
  ∃ thread,
    dp_post <$> thread = take 5 (db_posts demo_db) ∧
    ∀ k l c, (k, l) ∈ comments alice_page → c ∈ l →
             c ∈ thread ∧ post_type (dp_post c) = 6 ∧
             post_parent (dp_post c) = k.
Proof.
  assert (post_view (H:=demo_site) (demo_env 100) (demo_request alice None) 1
            question alice demo_world =
          (Ok (Render "post_detail.html"
                 (PostDetailContext alice_page "How to align reads?")),
           alice_world)) as Hrun by (vm_compute; reflexivity).
  split; [exact Hrun|].
  destruct (post_view_comments_by_parent (H:=demo_site) _ _ _ _ _ _ _ _ _ _
              Hrun) as (thread & Hthread & _ & _ & _ & Hin & _).
  exists thread. split; [exact Hthread | exact Hin].
Defined.

(** Alice has bookmarked the question. *)
Lemma post_view_vote_flags_witness :
  user_is_authenticated alice = true ∧
  post_view (H:=demo_site) (demo_env 100) (demo_request alice None) 1
    question alice demo_world =
  (Ok (Render "post_detail.html"
         (PostDetailContext alice_page "How to align reads?")),
   alice_world) ∧
  (has_bookmark (root alice_page) = true ↔
   1 ∈ [1; 2; 3; 4; 5] ∧ user_voted demo_db alice 2 1).
Proof.
  assert (post_view (H:=demo_site) (demo_env 100) (demo_request alice None) 1
            question alice demo_world =
          (Ok (Render "post_detail.html"
                 (PostDetailContext alice_page "How to align reads?")),
           alice_world)) as Hrun by (vm_compute; reflexivity).
  split_and!; [reflexivity|exact Hrun|].
  destruct (post_view_vote_flags (H:=demo_site) _ _ _ _ alice _ _ _ _ _
              eq_refl Hrun) as (_ & Hflags & _).
  exact (proj2 (Hflags (root alice_page) (or_introl eq_refl))).
Defined.

(** The page of the question for a visitor who is not logged in. *)
Lemma post_view_anonymous_flags_witness :
  user_is_authenticated anonymous = false ∧
  post_view (H:=demo_site) (demo_env 100) (demo_request anonymous None) 1
    question anonymous demo_world =
  (Ok (Render "post_detail.html"
         (PostDetailContext visitor_page "How to align reads?")),
   demo_world) ∧
  upvotes visitor_page = ∅ ∧ bookmarks visitor_page = ∅ ∧
  ∀ p, rendered visitor_page p → has_vote p = false ∧ has_bookmark p = false.
Proof.
  assert (post_view (H:=demo_site) (demo_env 100)
            (demo_request anonymous None) 1 question anonymous demo_world =
          (Ok (Render "post_detail.html"
                 (PostDetailContext visitor_page "How to align reads?")),
           demo_world)) as Hrun by (vm_compute; reflexivity).
  split_and!; [reflexivity|exact Hrun|..];
    apply (post_view_anonymous_flags (H:=demo_site) _ _ _ _ anonymous
             _ _ _ _ _ eq_refl Hrun).
Defined.

(** The page is rendered when the database refuses every statement of
    [update_post_views]. *)
Lemma update_post_views_swallows_witness :
  is_toplevel (Collaborators:=demo_site) question = true ∧
  db_users (db demo_world) ≠ [] ∧
  ∃ rp w',
    post_view (H:=demo_site)
      (mkEnv 200 200 3 1 "synergize" (λ _, Some (DatabaseError "inet")))
      (demo_request alice None) 1 question alice demo_world =
    (Ok (Render "post_detail.html" (PostDetailContext rp "How to align reads?")),
     w').
Proof.
  split_and!; [reflexivity|discriminate|].
  apply (proj2 (update_post_views_swallows (H:=demo_site)
                  (mkEnv 200 200 3 1 "synergize"
                     (λ _, Some (DatabaseError "inet")))
                  (demo_request alice None) question 5 demo_world)
           1 alice eq_refl).
  right. discriminate.
Defined.

(** A request for the answer is redirected to its place in the thread. *)
Lemma post_view_redirects_replies_witness :
  is_toplevel (Collaborators:=demo_site) answer = false ∧
  post_view (H:=demo_site) (demo_env 100) (demo_request alice None) 2
    answer alice demo_world =
  (Ok (Redirect "/p/1/#2"), demo_world).
Proof.
  split; [reflexivity|].
  exact (post_view_redirects_replies (H:=demo_site) (demo_env 100)
           (demo_request alice None) 2 answer alice demo_world eq_refl).
Defined.

(** A search without a query, with an empty one, and for [bwa]. *)
Lemma search_results_query_witness :
  search_results (H:=demo_site) (demo_request anonymous None) demo_world =
    (Ok (Redirect "/"), demo_world) ∧
  search_results (H:=demo_site) (demo_request anonymous (Some ""))
    demo_world = (Ok (Redirect "/"), demo_world) ∧
  shown_results
    (search_results (H:=demo_site) (demo_request anonymous (Some "bwa"))
       demo_world) = [question; answer].
Proof.
  split_and!.
  - apply (proj1 (search_results_query (H:=demo_site)
                    (demo_request anonymous None) demo_world)).
    left. reflexivity.
  - apply (proj1 (search_results_query (H:=demo_site)
                    (demo_request anonymous (Some "")) demo_world)).
    right. reflexivity.
  - rewrite (proj2 (search_results_query (H:=demo_site)
                      (demo_request anonymous (Some "bwa")) demo_world)
               "bwa" eq_refl).
    + reflexivity.
    + discriminate.
Defined.

(** A view of the question long after the last one is counted. *)
Lemma update_post_views_once_witness :
  update_post_views (demo_env 200) (demo_request anonymous None) question 5
    demo_world = (Ok tt, viewed_world) ∧
  trace viewed_world = trace demo_world ∧
  db_post_views (db viewed_world) =
    [mkPostView "10.0.0.7" 1 (96 * minute);
     mkPostView "10.0.0.7" 1 (200 * minute)] ∧
  db_posts (db viewed_world) = update_view_count 1 (db_posts demo_db).
Proof.
  assert (update_post_views (demo_env 200) (demo_request anonymous None)
            question 5 demo_world = (Ok tt, viewed_world)) as Hrun
    by (vm_compute; reflexivity).
  destruct (update_post_views_once (demo_env 200)
              (demo_request anonymous None) question 5 demo_world
              viewed_world Hrun eq_refl) as (Hcounted & _).
  destruct Hcounted as [Hcreated Hincremented]; [vm_compute; reflexivity|].
  split_and!; [exact Hrun|reflexivity|exact Hcreated|exact Hincremented].
Defined.

(** * Further properties of the handlers *)

(** ** The names of a tag filter *)

Lemma split_not_nil sep s : split sep s ≠ [].
Proof.
  destruct s as [|c s]; [done|]. cbn.
  destruct (Ascii.eqb c sep); [done|]. by destruct (split sep s).
Qed.

Lemma join_cons sep piece pieces :
  pieces ≠ [] →
  join sep (piece :: pieces) = piece +:+ String sep (join sep pieces).
Proof. by destruct pieces. Qed.

(** X1. The names that [tag_filter] filters by are the pieces of the
    [name] between its [+] signs: there is at least one, none of them has
    a [+] in it, and joined with [+] they give the [name] back. *)
Theorem split_join_round_trip sep s :
  join sep (split sep s) = s ∧
  split sep s ≠ [] ∧
  Forall (λ piece, has_char sep piece = false) (split sep s).
Proof.
  split_and!; [| apply split_not_nil |].
  - induction s as [|c s IH]; [done|]. cbn [split].
    pose proof (split_not_nil sep s) as Hnil.
    destruct (Ascii.eqb c sep) eqn:Hc.
    + apply Ascii.eqb_eq in Hc as ->.
      by rewrite join_cons, IH.
    + destruct (split sep s) as [|piece pieces]; [done|].
      rewrite <-IH. by destruct pieces.
  - induction s as [|c s IH]; [by repeat constructor|]. cbn [split].
    destruct (Ascii.eqb c sep) eqn:Hc.
    + by constructor.
    + destruct (split sep s) as [|piece pieces].
      * repeat constructor. cbn. by rewrite Hc.
      * apply Forall_cons in IH as [Hpiece Hpieces].
        constructor; [|done]. cbn. by rewrite Hc, Hpiece.
Qed.

Section more_tags.
Context `{Collaborators}.

(** X2. With a [name] that has no [+] in it, [tag_filter] shows only
    toplevel posts that carry the tag of that name. *)
Theorem tag_filter_single_name request name w :
  paginator_selects →
  has_char "+" name = false →
  ∀ p, p ∈ shown_posts (tag_filter request name w) →
       p ∈ get_toplevel_posts (req_user request) (req_group request) (db w) ∧
       name ∈ post_tags p.
Proof.
  intros Hpage Hname p. rewrite shown_posts_tag_filter.
  intros Hp%Hpage.
  apply elem_of_filter_tags_name_in in Hp as (Hp & t & Ht & Hin).
  rewrite split_no_sep in Ht by done.
  apply list_elem_of_singleton in Ht as ->. done.
Qed.

End more_tags.

(** A request for the tag [rna-seq] on the small site. *)
Lemma tag_filter_single_name_witness :
  @paginator_selects demo_site ∧
  has_char "+" "rna-seq" = false ∧
  ∀ p, p ∈ shown_posts (tag_filter (H:=demo_site)
                          (demo_request anonymous None) "rna-seq"
                          demo_world) →
       "rna-seq" ∈ post_tags p.
Proof.
  split_and!; [exact demo_paginator_selects|reflexivity|].
  intros p Hp.
  exact (proj2 (tag_filter_single_name (H:=demo_site)
                  (demo_request anonymous None) "rna-seq" demo_world
                  demo_paginator_selects eq_refl p Hp)).
Defined.

(** ** More on the comments of a thread *)

Section more_comments.
Context `{Collaborators}.

Lemma od_values_setdefault_append {K A} `{EqDecision K}
    (k : K) (x : A) (d : OrderedDict K (list A)) :
  concat (od_values (od_setdefault_append k x d))
    ≡ₚ concat (od_values d) ++ [x].
Proof.
  unfold od_values. induction d as [|[k' l] d IH]; [done|].
  cbn [od_setdefault_append]. destruct (decide (k = k')) as [->|].
  - rewrite !fmap_cons. cbn [snd concat].
    rewrite <-!app_assoc. apply Permutation_app_head, Permutation_app_comm.
  - rewrite !fmap_cons. cbn [snd concat]. rewrite IH. by rewrite app_assoc.
Qed.

Lemma od_values_foldl_add (l : list DPost) d :
  concat (od_values (foldl add_comment d l)) ≡ₚ concat (od_values d) ++ l.
Proof.
  revert d. induction l as [|c l IH]; intros d.
  - by rewrite app_nil_r.
  - cbn [foldl]. rewrite IH. unfold add_comment.
    rewrite od_values_setdefault_append. by rewrite <-app_assoc.
Qed.

Lemma first_seen_not_in `{EqDecision A} (seen l : list A) x :
  x ∈ seen →
  filter (λ y, y ∉ seen) (filter (λ y, y ≠ x) l) = filter (λ y, y ∉ seen) l.
Proof.
  intros Hx. rewrite list_filter_filter. apply list_filter_iff.
  intros y. split; [by intros [? _]|]. intros Hy. split; [done|].
  by intros ->.
Qed.

Lemma filter_not_in_nil `{EqDecision A} (l : list A) :
  filter (λ y, y ∉ ([] : list A)) l = l.
Proof.
  induction l as [|x l IH]; [done|].
  rewrite filter_cons_True by apply not_elem_of_nil. by rewrite IH.
Qed.

Lemma od_keys_foldl_add (l : list DPost) d :
  od_keys (foldl add_comment d l) =
  od_keys d ++ filter (λ k, k ∉ od_keys d)
                 (first_seen ((λ c, post_parent (dp_post c)) <$> l)).
Proof.
  revert d. induction l as [|c l IH]; intros d.
  - cbn. by rewrite app_nil_r.
  - cbn [foldl]. rewrite IH, fmap_cons. cbn [first_seen].
    set (k := post_parent (dp_post c)).
    set (fs := first_seen ((λ c, post_parent (dp_post c)) <$> l)).
    assert (od_keys (add_comment d c) =
            if decide (k ∈ od_keys d) then od_keys d else od_keys d ++ [k])
      as -> by apply od_keys_setdefault_append.
    destruct (decide (k ∈ od_keys d)) as [Hin|Hnin].
    + rewrite filter_cons_False by (by intros Hk).
      by rewrite first_seen_not_in.
    + rewrite filter_cons_True by done.
      rewrite <-app_assoc. cbn [app]. f_equal. f_equal.
      rewrite list_filter_filter. apply list_filter_iff.
      intros y. rewrite elem_of_app, list_elem_of_singleton. 
      split.
      * intros Hy. split; [intros ?; apply Hy; by left|].
        intros ->. apply Hy. by right.
      * intros [Hy Hne] [?|?]; done.
Qed.

(** X3. Every comment of the thread is on the thread page once: the lists
    of the dictionary of comments, one after the other, hold the comments
    of the thread, each of them as many times as the thread does. *)
Theorem post_view_comments_all_once env request pk post user w
    tn rp title w' :
  post_view env request pk post user w =
    (Ok (Render tn (PostDetailContext rp title)), w') →
  let d := db (update_post_views env request post POST_VIEW_INTERVAL w).2 in
  ∃ thread,
    dp_post <$> thread = get_thread post user d ∧
    concat (od_values (comments rp))
      ≡ₚ filter (λ c, post_type (dp_post c) = Post_COMMENT) thread.
Proof.
  intros (w1 & up & bm & Hw1 & _ & _ & ->)%post_view_rendered.
  rewrite Hw1. cbn [snd]. cbn zeta.
  exists (decorator (thread_write_access user post (db w1)) user up bm
            <$> get_thread post user (db w1)).
  split.
  - rewrite <-list_fmap_compose. apply list_fmap_id.
  - cbn [comments thread_page]. unfold collect_comments.
    by rewrite od_values_foldl_add.
Qed.

(** X4. The keys of the dictionary of comments come in the order in
    which the parents get their first comment in the thread. *)
Theorem post_view_comments_key_order env request pk post user w
    tn rp title w' :
  post_view env request pk post user w =
    (Ok (Render tn (PostDetailContext rp title)), w') →
  let d := db (update_post_views env request post POST_VIEW_INTERVAL w).2 in
  od_keys (comments rp) =
  first_seen (post_parent <$>
              filter (λ p, post_type p = Post_COMMENT) (get_thread post user d)).
Proof.
  intros (w1 & up & bm & Hw1 & _ & _ & ->)%post_view_rendered.
  rewrite Hw1. cbn [snd]. cbn zeta. cbn [comments thread_page].
  unfold collect_comments. rewrite od_keys_foldl_add.
  change (od_keys ([] : OrderedDict Z (list DPost))) with ([] : list Z).
  rewrite filter_not_in_nil. cbn [app]. f_equal.
  set (decorate := decorator (thread_write_access user post (db w1)) user up bm).
  induction (get_thread post user (db w1)) as [|p ps IH]; [done|].
  rewrite fmap_cons, !filter_cons. cbn [dp_post decorate decorator].
  destruct (decide (post_type p = Post_COMMENT)); [|done].
  rewrite !fmap_cons. cbn [dp_post decorate decorator]. by rewrite IH.
Qed.

End more_comments.

(** ** More on the votes of the user *)

Section more_votes.
Context `{Collaborators}.

(** X5. The sets [post.upvotes] and [post.bookmarks] of the thread page
    hold the ids of the posts of the thread on which the user, being
    authenticated, has a vote of type [UP], of type [BOOKMARK]: no id from
    outside the thread, no vote of another user or of another type. *)
Theorem post_view_vote_sets env request pk post user w tn rp title w' :
  post_view env request pk post user w =
    (Ok (Render tn (PostDetailContext rp title)), w') →
  let d := db (update_post_views env request post POST_VIEW_INTERVAL w).2 in
  let pids := post_id <$> get_thread post user d in
  (∀ pid, pid ∈ upvotes rp ↔
          user_is_authenticated user = true ∧ pid ∈ pids ∧
          user_voted (db w) user Vote_UP pid) ∧
  (∀ pid, pid ∈ bookmarks rp ↔
          user_is_authenticated user = true ∧ pid ∈ pids ∧
          user_voted (db w) user Vote_BOOKMARK pid).
Proof.
  intros (w1 & up & bm & Hw1 & Hup & Hbm & ->)%post_view_rendered.
  pose proof (update_post_views_writes env request post POST_VIEW_INTERVAL w)
    as (Hvotes & _).
  rewrite Hw1 in *. cbn [snd] in *. cbn zeta.
  set (d := db w1) in *. set (thread := get_thread post user d) in *.
  destruct (collect_votes_lookup user thread d Vote_UP)
    as (up' & Hup' & Hinup); [by left|].
  destruct (collect_votes_lookup user thread d Vote_BOOKMARK)
    as (bm' & Hbm' & Hinbm); [by right|].
  assert (up' = up) as -> by congruence.
  assert (bm' = bm) as -> by congruence.
  assert (∀ t pid, user_voted d user t pid ↔ user_voted (db w) user t pid)
    as Hvoted by (intros t pid; unfold user_voted; by rewrite Hvotes).
  cbn [upvotes bookmarks thread_page].
  split; intros pid; [rewrite Hinup|rewrite Hinbm]; by rewrite Hvoted.
Qed.

End more_votes.

(** ** More on the recording of page views *)

Section more_views.
Context `{Collaborators}.
Implicit Types (env : Env) (request : Request) (post : Post) (w : World).

(** The rows of page views after a call: the rows before, and the new one
    when no row was seen and the two first statements went through. *)
Lemma update_post_views_rows env request post minutes w :
  let rows := db_post_views (db w) in
  let rows' :=
    db_post_views (db (update_post_views env request post minutes w).2) in
  rows' = rows ∨
  (seen_views env request post minutes w = [] ∧
   rows' = rows ++ [new_view env request post]).
Proof.
  rewrite update_post_views_run. cbn zeta.
  destruct (db_fault env (SelectPostView _ _ _)); [by left|].
  case_bool_decide as Hseen; [|by left].
  destruct (db_fault env (InsertPostView _)); [by left|].
  destruct (db_fault env (UpdateViewCount _)); by right.
Qed.

Lemma spaced_snoc gap rows row :
  spaced gap rows →
  (∀ a, a ∈ rows → pv_ip a = pv_ip row → pv_post a = pv_post row →
        pv_date a + gap ≤ pv_date row) →
  spaced gap (rows ++ [row]).
Proof.
  intros Hrows Hrow i j a b Hi Hj Hij Hip Hpost.
  destruct (decide (j < length rows)%nat) as [Hlt|Hge].
  - rewrite lookup_app_l in Hi, Hj by lia. by eapply Hrows.
  - rewrite lookup_app_r in Hj by lia.
    apply list_lookup_singleton_Some in Hj as [Hj <-].
    rewrite lookup_app_l in Hi by lia.
    apply Hrow; [|done..]. by eapply list_elem_of_lookup_2.
Qed.

(** X6. [update_post_views] keeps the page views spaced by the interval,
    whatever the database refuses, as long as the clock does not go back
    between [auth.ago] and [auth.now]: of two rows for one address and one
    post, the later one is dated at least the interval after the earlier
    one. [post_view] keeps them spaced by [POST_VIEW_INTERVAL]. *)
Theorem update_post_views_spaced env request post minutes w :
  clock_ago env ≤ clock_now env →
  spaced (minutes * minute) (db_post_views (db w)) →
  spaced (minutes * minute)
    (db_post_views (db (update_post_views env request post minutes w).2)) ∧
  (minutes = POST_VIEW_INTERVAL →
   ∀ pk user,
     spaced (minutes * minute)
       (db_post_views (db (post_view env request pk post user w).2))).
Proof.
  intros Hclock Hspaced.
  assert (spaced (minutes * minute)
            (db_post_views
               (db (update_post_views env request post minutes w).2)))
    as Hafter.
  { destruct (update_post_views_rows env request post minutes w)
      as [->|[Hseen ->]]; [done|].
    apply spaced_snoc; [done|]. intros a Ha Hip Hpost.
    destruct (decide (ago env minutes < pv_date a)) as [Hlt|Hge].
    - assert (a ∈ seen_views env request post minutes w) as Hin
        by (by apply list_elem_of_filter).
      rewrite Hseen in Hin. by apply elem_of_nil in Hin.
    - unfold ago in Hge. cbn. unfold now. lia. }
  split; [done|]. intros -> pk user.
  destruct (is_toplevel post) eqn:Htop.
  - destruct (post_view_toplevel env request pk post user w Htop)
      as (w1 & up & bm & Hw1 & _ & _ & ->). cbn zeta.
    rewrite Hw1 in Hafter. cbn [snd] in Hafter.
    destruct (user_is_authenticated user); [|done].
    match goal with
    | |- context [add_test_comment env ?ps w1] =>
        destruct (add_test_comment_writes env ps w1) as [Hdb|(c & Hc & Hdb)];
        destruct (add_test_comment env ps w1) as [[[]|e] w2]
    end; cbn [snd] in *; by rewrite Hdb.
  - by rewrite post_view_not_toplevel.
Qed.

(** X7. Whatever the database refuses, [update_post_views] adds one to
    the count of the post only in a call in which it has created the row
    of the view, and to no other post; it creates a row only when it has
    seen none for the address and the post within the interval. *)
Theorem update_post_views_count_has_row env request post minutes w :
  let w' := (update_post_views env request post minutes w).2 in
  (db_posts (db w') = db_posts (db w) ∨
   db_posts (db w') = update_view_count (post_id post) (db_posts (db w)) ∧
   db_post_views (db w') =
     db_post_views (db w) ++ [new_view env request post]) ∧
  (db_post_views (db w') = db_post_views (db w) ∨
   db_post_views (db w') =
     db_post_views (db w) ++ [new_view env request post] ∧
   seen_views env request post minutes w = []).
Proof.
  rewrite update_post_views_run. cbn zeta.
  destruct (db_fault env (SelectPostView _ _ _)); [by split; left|].
  case_bool_decide as Hseen; [|by split; left].
  destruct (db_fault env (InsertPostView _)); [by split; left|].
  destruct (db_fault env (UpdateViewCount _)); cbn.
  - split; [by left|by right].
  - split; by right.
Qed.

(** X8. When the database takes the new row and then refuses the update
    of the count, the exception is logged, the row stays and the count is
    as it was; a later call within the interval sees the row, so this
    view is not counted. *)
Theorem update_post_views_lost_view env request post minutes w exc :
  db_fault env (SelectPostView (remote_ip request) (post_id post)
                  (ago env minutes)) = None →
  seen_views env request post minutes w = [] →
  db_fault env (InsertPostView (new_view env request post)) = None →
  db_fault env (UpdateViewCount (post_id post)) = Some exc →
  let w' := (update_post_views env request post minutes w).2 in
  trace w' = trace w ++ [EvLogError exc] ∧
  db_post_views (db w') =
    db_post_views (db w) ++ [new_view env request post] ∧
  db_posts (db w') = db_posts (db w) ∧
  ∀ env2, ago env2 minutes < now env →
          db (update_post_views env2 request post minutes w').2 = db w'.
Proof.
  intros Hselect Hseen Hinsert Hupdate. cbn zeta.
  rewrite update_post_views_run. cbn zeta.
  rewrite Hselect, Hseen, Hinsert, Hupdate. cbn.
  split_and!; [done..|].
  intros env2 Hlt. rewrite update_post_views_run. cbn zeta.
  destruct (db_fault env2 (SelectPostView _ _ _)); [done|].
  case_bool_decide as Hseen2; [|done].
  assert (new_view env request post
            ∈ seen_views env2 request post minutes
                (mkWorld (with_post_views
                            (db_post_views (db w)
                               ++ [new_view env request post]) (db w))
                   (trace w ++ [EvLogError exc]))) as Hin.
  { apply list_elem_of_filter. split; [done|].
    cbn. apply elem_of_app. right. left. }
  rewrite Hseen2 in Hin. by apply elem_of_nil in Hin.
Qed.

(** X9. With an interval above zero and a clock that does not go back,
    a second call of [update_post_views] in the same environment leaves
    the database as the first call left it. *)
Theorem update_post_views_twice env request post minutes w :
  0 < minutes → clock_ago env ≤ clock_now env →
  let w' := (update_post_views env request post minutes w).2 in
  db (update_post_views env request post minutes w').2 = db w'.
Proof.
  intros Hminutes Hclock. cbn zeta.
  assert (ago env minutes < now env) as Hlt
    by (unfold ago, now, minute; lia).
  rewrite (update_post_views_run env request post minutes w). cbn zeta.
  destruct (db_fault env (SelectPostView _ _ _)) eqn:Hselect.
  { cbn [snd]. rewrite update_post_views_run. cbn zeta. by rewrite Hselect. }
  case_bool_decide as Hseen.
  - destruct (db_fault env (InsertPostView _)) eqn:Hinsert.
    { cbn [snd]. rewrite update_post_views_run. cbn zeta.
      rewrite Hselect. unfold seen_views in *. cbn [db].
      rewrite Hseen. cbn. by rewrite Hinsert. }
    assert (∀ d t,
              db_post_views d =
                db_post_views (db w) ++ [new_view env request post] →
              db (update_post_views env request post minutes
                    (mkWorld d t)).2 = d) as Hnext.
    { intros d t Hd. rewrite update_post_views_run. cbn zeta.
      rewrite Hselect. case_bool_decide as Hseen2; [|done].
      assert (new_view env request post
                ∈ seen_views env request post minutes (mkWorld d t)) as Hin.
      { apply list_elem_of_filter. split; [done|].
        cbn. rewrite Hd. apply elem_of_app. right. left. }
      rewrite Hseen2 in Hin. by apply elem_of_nil in Hin. }
    destruct (db_fault env (UpdateViewCount _)); cbn [snd]; by apply Hnext.
  - cbn [snd]. rewrite update_post_views_run. cbn zeta.
    rewrite Hselect. by rewrite bool_decide_eq_false_2.
Qed.

End more_views.

(** ** The comment that [post_view] adds for testing *)

Section more_post_view.
Context `{Collaborators}.
Implicit Types (env : Env) (request : Request) (post : Post) (w : World).

Lemma add_test_comment_row env page_posts w w' :
  add_test_comment env page_posts w = (Ok tt, w') →
  ∃ u parent,
    u ∈ db_users (db w) ∧ parent ∈ page_posts ∧
    trace w' = trace w ∧
    db w' =
    with_posts
      (db_posts (db w) ++
       [mkPost (fresh_post_id (db_posts (db w))) Post_COMMENT
          (post_id (dp_post parent)) (user_id u) "" (faker_bs env) 0 []])
      (db w).
Proof.
  unfold add_test_comment, Post_create, random_choice. unfold_m.
  destruct (db_users (db w) !! _) as [u|] eqn:Hu; [|done].
  destruct (page_posts !! _) as [parent|] eqn:Hparent; [|done].
  intros [= <-]. exists u, parent. split_and!; [..|done|done].
  - by eapply list_elem_of_lookup_2.
  - by eapply list_elem_of_lookup_2.
Qed.

(** X10. A call of [post_view] that renders the page for an authenticated
    user leaves one new post in the database, after what the recording
    of the view has written: a comment with the text of [faker], by one
    of the users of the database, on the root post or on a post of the
    thread. For a user who is not authenticated nothing is written after
    the recording of the view. *)
Theorem post_view_test_comment env request pk post user w tn rp title w' :
  post_view env request pk post user w =
    (Ok (Render tn (PostDetailContext rp title)), w') →
  let d := db (update_post_views env request post POST_VIEW_INTERVAL w).2 in
  if user_is_authenticated user then
    ∃ comment u,
      db w' = with_posts (db_posts d ++ [comment]) d ∧
      post_type comment = Post_COMMENT ∧
      post_content comment = faker_bs env ∧
      u ∈ db_users (db w) ∧ post_author comment = user_id u ∧
      (post_parent comment = post_id post ∨
       post_parent comment ∈ post_id <$> get_thread post user d)
  else db w' = d.
Proof.
  intros Hrun.
  destruct (is_toplevel post) eqn:Htop;
    [|by rewrite post_view_not_toplevel in Hrun].
  destruct (post_view_toplevel env request pk post user w Htop)
    as (w1 & up & bm & Hw1 & _ & _ & Hpv).
  rewrite Hpv in Hrun. clear Hpv. cbn zeta in Hrun.
  pose proof (update_post_views_writes env request post POST_VIEW_INTERVAL w)
    as (_ & _ & Husers & _).
  rewrite Hw1 in *. cbn [snd] in *. cbn zeta.
  destruct (user_is_authenticated user); [|congruence].
  destruct (add_test_comment env _ w1) as [[[]|e] w2] eqn:Hadd; [|done].
  assert (w' = w2) as -> by congruence.
  apply add_test_comment_row in Hadd
    as (u & parent & Hu & Hparent & _ & Hdb).
  eexists _, u. split_and!; [exact Hdb|done|done|by rewrite <-Husers|done|].
  cbn. apply elem_of_app in Hparent as [Hthread|Hroot].
  - right. apply list_elem_of_fmap in Hthread as (q & -> & Hq).
    cbn. apply list_elem_of_fmap. by exists q.
  - left. by apply list_elem_of_singleton in Hroot as ->.
Qed.

End more_post_view.

(** ** The lists of tags and of posts *)

Section more_lists.
Context `{Collaborators}.

Lemma prefix_spec needle s :
  String.prefix needle s = true ↔ ∃ rest, s = needle +:+ rest.
Proof.
  revert s. induction needle as [|c needle IH]; intros s.
  - split; [intros _; exists s; reflexivity|intros _; by destruct s].
  - destruct s as [|c' s]; cbn.
    + split; [done|]. by intros [rest [=]].
    + destruct (Ascii.ascii_dec c c') as [->|Hne].
      * rewrite IH. split.
        -- intros [rest ->]. by exists rest.
        -- intros [rest [= ->]]. by exists rest.
      * split; [done|]. intros [rest [= ? _]]. done.
Qed.

(** [contains needle s] holds when [needle] is a part of [s]. *)
Lemma contains_spec needle s :
  contains needle s = true ↔
  ∃ before after, s = before +:+ needle +:+ after.
Proof.
  induction s as [|c s IH]; cbn [contains]; rewrite orb_true_iff.
  - rewrite prefix_spec. split.
    + intros [[rest Hrest]|?]; [|done]. by exists "", rest.
    + intros ([|??] & after & Heq); [|done]. left. by exists after.
  - rewrite prefix_spec, IH. split.
    + intros [[rest Hrest]|(before & after & ->)].
      * by exists "", rest.
      * by exists (String c before), after.
    + intros ([|c' before] & after & Heq).
      * left. by exists after.
      * right. injection Heq as -> ->. by exists before, after.
Qed.

(** X11. [tag_list] lists tags of the database only; with a query [q]
    that is not empty, the name of each tag that is listed has [q] in it,
    upper and lower case letters taken as the same. *)
Theorem tag_list_shows request w :
  tag_paginator_selects → order_by_keeps →
  ∀ t, t ∈ shown_tags (tag_list request w) →
       t ∈ db_tags (db w) ∧
       ∀ q, GET request !! "q" = Some q → q ≠ "" →
            ∃ before after,
              lower_string (tag_name t) =
              before +:+ lower_string q +:+ after.
Proof.
  intros Hpage Horder t. unfold tag_list, tag_curr_page, GET_get.
  unfold_m. cbn [shown_tags db]. intros Ht%Hpage.
  unfold order_by_keeps in Horder. rewrite Horder in Ht. split.
  - destruct (truthy _); [|done].
    by apply list_elem_of_filter in Ht as [_ Ht].
  - intros q Hq Hne. rewrite Hq in Ht.
    destruct q as [|c q]; [done|]. cbn [truthy] in Ht.
    apply list_elem_of_filter in Ht as [Ht _].
    by apply contains_spec in Ht.
Qed.

(** X12. The handlers that list posts show posts of the query that they
    make, and of no other: [posts_by_user] the posts of the user of the
    URL, [upvoted_posts] the posts that this user has bookmarked or voted
    up, [my_bookmarks] the bookmarks of the user of the request,
    [post_list] the posts it is given or else the toplevel posts, and
    [search_results] the results of the search for [q]. *)
Theorem listings_show_their_query request pk user posts w :
  paginator_selects →
  shown_posts (posts_by_user request pk user w)
    ⊆ get_all_posts user (req_group request) (db w) ∧
  shown_posts (upvoted_posts request pk user w)
    ⊆ get_posts_by_vote user (req_group request) [Vote_BOOKMARK; Vote_UP]
        (db w) ∧
  shown_posts (my_bookmarks request w)
    ⊆ get_my_bookmarks (req_user request) (req_group request) (db w) ∧
  shown_posts (post_list request (Some posts) w) ⊆ posts ∧
  shown_posts (post_list request None w)
    ⊆ get_toplevel_posts (req_user request) (req_group request) (db w) ∧
  shown_results (search_results request w)
    ⊆ search_plain (GET_get request "q" "") (db w).
Proof.
  intros Hpage.
  unfold posts_by_user, upvoted_posts, my_bookmarks, post_list,
    search_results, search_plain_call, messages_info, post_curr_page,
    query_recent_votes.
  unfold_m. cbn [shown_posts db].
  split_and!; try apply Hpage.
  destruct (truthy _); cbn [negb shown_results]; [apply Hpage|].
  apply list_subseteq_nil.
Qed.

End more_lists.

(** ** Examples on the small site, continued *)

(** The comments of the question are all on the page of alice. *)
Lemma post_view_comments_all_once_witness :
  post_view (H:=demo_site) (demo_env 100) (demo_request alice None) 1
    question alice demo_world =
  (Ok (Render "post_detail.html"
         (PostDetailContext alice_page "How to align reads?")),
   alice_world) ∧
  ∃ thread,
    dp_post <$> thread = take 5 (db_posts demo_db) ∧
    concat (od_values (comments alice_page))
      ≡ₚ filter (λ c, post_type (dp_post c) = 6) thread.
Proof.
  assert (post_view (H:=demo_site) (demo_env 100) (demo_request alice None) 1
            question alice demo_world =
          (Ok (Render "post_detail.html"
                 (PostDetailContext alice_page "How to align reads?")),
           alice_world)) as Hrun by (vm_compute; reflexivity).
  split; [exact Hrun|].
  exact (post_view_comments_all_once (H:=demo_site) _ _ _ _ _ _ _ _ _ _ Hrun).
Defined.

(** The question has its first comment before the answer has one. *)
Lemma post_view_comments_key_order_witness :
  post_view (H:=demo_site) (demo_env 100) (demo_request alice None) 1
    question alice demo_world =
  (Ok (Render "post_detail.html"
         (PostDetailContext alice_page "How to align reads?")),
   alice_world) ∧
  od_keys (comments alice_page) = [1; 2].
Proof.
  assert (post_view (H:=demo_site) (demo_env 100) (demo_request alice None) 1
            question alice demo_world =
          (Ok (Render "post_detail.html"
                 (PostDetailContext alice_page "How to align reads?")),
           alice_world)) as Hrun by (vm_compute; reflexivity).
  split; [exact Hrun|].
  exact (post_view_comments_key_order (H:=demo_site) _ _ _ _ _ _ _ _ _ _
           Hrun).
Defined.

(** The votes of alice on the thread of the question. *)
Lemma post_view_vote_sets_witness :
  post_view (H:=demo_site) (demo_env 100) (demo_request alice None) 1
    question alice demo_world =
  (Ok (Render "post_detail.html"
         (PostDetailContext alice_page "How to align reads?")),
   alice_world) ∧
  ∀ pid, pid ∈ upvotes alice_page ↔
         true = true ∧ pid ∈ [1; 2; 3; 4; 5] ∧ user_voted demo_db alice 0 pid.
Proof.
  assert (post_view (H:=demo_site) (demo_env 100) (demo_request alice None) 1
            question alice demo_world =
          (Ok (Render "post_detail.html"
                 (PostDetailContext alice_page "How to align reads?")),
           alice_world)) as Hrun by (vm_compute; reflexivity).
  split; [exact Hrun|].
  exact (proj1 (post_view_vote_sets (H:=demo_site) _ _ _ _ _ _ _ _ _ _ Hrun)).
Defined.

(** The page views of the small site stay five minutes apart. *)
Lemma update_post_views_spaced_witness :
  clock_ago (demo_env 200) ≤ clock_now (demo_env 200) ∧
  spaced (5 * minute) (db_post_views demo_db) ∧
  spaced (5 * minute) (db_post_views (db viewed_world)).
Proof.
  assert (clock_ago (demo_env 200) ≤ clock_now (demo_env 200)) as Hclock
    by (vm_compute; discriminate).
  assert (spaced (5 * minute) (db_post_views (db demo_world))) as Hspaced.
  { intros [|i] [|j] a b Hi Hj Hij; cbn in Hi, Hj; try done; lia. }
  split_and!; [exact Hclock|exact Hspaced|].
  exact (proj1 (update_post_views_spaced (H:=demo_site) (demo_env 200)
                  (demo_request anonymous None) question 5 demo_world
                  Hclock Hspaced)).
Defined.

(** A view of the question whose count the database refuses. *)
Lemma update_post_views_lost_view_witness :
  let w' := (update_post_views (demo_env_no_update 200)
               (demo_request anonymous None) question 5 demo_world).2 in
  trace w' = [EvLogError (DatabaseError "deadlock")] ∧
  db_posts (db w') = db_posts demo_db ∧
  db (update_post_views (demo_env 203) (demo_request anonymous None)
        question 5 w').2 = db w'.
Proof.
  destruct (update_post_views_lost_view (demo_env_no_update 200)
              (demo_request anonymous None) question 5 demo_world
              (DatabaseError "deadlock") eq_refl eq_refl eq_refl eq_refl)
    as (Htrace & _ & Hposts & Hnext).
  split_and!; [exact Htrace|exact Hposts|].
  apply Hnext. vm_compute. reflexivity.
Defined.

(** A second view of the question at the same instant. *)
Lemma update_post_views_twice_witness :
  0 < 5 ∧ clock_ago (demo_env 200) ≤ clock_now (demo_env 200) ∧
  db (update_post_views (demo_env 200) (demo_request anonymous None)
        question 5 viewed_world).2 = db viewed_world.
Proof.
  assert (clock_ago (demo_env 200) ≤ clock_now (demo_env 200)) as Hclock
    by (vm_compute; discriminate).
  split_and!; [lia|exact Hclock|].
  exact (update_post_views_twice (demo_env 200)
           (demo_request anonymous None) question 5 demo_world
           ltac:(lia) Hclock).
Defined.

(** The comment that the page of alice leaves behind. *)
Lemma post_view_test_comment_witness :
  post_view (H:=demo_site) (demo_env 100) (demo_request alice None) 1
    question alice demo_world =
  (Ok (Render "post_detail.html"
         (PostDetailContext alice_page "How to align reads?")),
   alice_world) ∧
  ∃ comment u,
    db alice_world = with_posts (db_posts demo_db ++ [comment]) demo_db ∧
    post_type comment = 6 ∧
    post_content comment = "synergize scalable metrics" ∧
    u ∈ db_users demo_db ∧ post_author comment = user_id u ∧
    (post_parent comment = 1 ∨ post_parent comment ∈ [1; 2; 3; 4; 5]).
Proof.
  assert (post_view (H:=demo_site) (demo_env 100) (demo_request alice None) 1
            question alice demo_world =
          (Ok (Render "post_detail.html"
                 (PostDetailContext alice_page "How to align reads?")),
           alice_world)) as Hrun by (vm_compute; reflexivity).
  split; [exact Hrun|].
  exact (post_view_test_comment (H:=demo_site) _ _ _ _ alice _ _ _ _ _ Hrun).
Defined.

Lemma demo_tag_paginator_selects : @tag_paginator_selects demo_site.
Proof. intros request tags per_page. cbn. apply subseteq_take. Qed.

Lemma demo_order_by_keeps : @order_by_keeps demo_site.
Proof. intros tags. cbn. apply merge_sort_Permutation. Qed.

(** The tags of the small site with [RNA] in their name. *)
Lemma tag_list_shows_witness :
  @tag_paginator_selects demo_site ∧ @order_by_keeps demo_site ∧
  ∀ t, t ∈ shown_tags (tag_list (H:=demo_site)
                         (demo_request anonymous (Some "RNA")) demo_world) →
       t ∈ db_tags demo_db ∧
       ∃ before after,
         lower_string (tag_name t) = before +:+ "rna" +:+ after.
Proof.
  split_and!; [exact demo_tag_paginator_selects|exact demo_order_by_keeps|].
  intros t Ht.
  destruct (tag_list_shows (H:=demo_site)
              (demo_request anonymous (Some "RNA")) demo_world
              demo_tag_paginator_selects demo_order_by_keeps t Ht)
    as [Hdb Hname].
  split; [exact Hdb|]. apply (Hname "RNA"); [reflexivity|discriminate].
Defined.

(** The bookmarks of alice. *)
Lemma listings_show_their_query_witness :
  @paginator_selects demo_site ∧
  shown_posts (my_bookmarks (H:=demo_site) (demo_request alice None)
                 demo_world)
    ⊆ get_my_bookmarks (Collaborators:=demo_site) alice everyone demo_db.
Proof.
  split; [exact demo_paginator_selects|].
  exact (proj1 (proj2 (proj2
           (listings_show_their_query (H:=demo_site)
              (demo_request alice None) 1 alice [] demo_world
              demo_paginator_selects)))).
Defined.
